(** * seoulgn-exam-map: the CSV ingestion, validation and derivation pipeline

    A shallow embedding of [parseCSV] (both the comma-splitting and the
    quote-aware variant), [validateCenters], [hasTag], the [filtered] and
    [geojson] derivations and the admin handlers [onUploadCSV] /
    [onPasteCSV] of the map component, with the properties the
    specification states about them. *)

From Stdlib Require Import List NArith ZArith Bool Lia String Ascii.
From Stdlib Require Import Floats.SpecFloat.
From Stdlib Require Import Sorting.Sorted.
Import ListNotations.

(* ================================================================== *)
(** * The platform: strings, arrays and numbers of the host language   *)
(* ================================================================== *)

(** A string of the host language is a sequence of 16-bit code units;
    [text[i]], [length], [trim], [split] and [===] all work on code units. *)
Definition codeunit := N.
Definition jsstring := list codeunit.

Module Js.

Open Scope N_scope.

(** ** String literals

    A literal of this file is written as a Rocq string, which holds the
    UTF-8 bytes of the text; [lit] decodes them to code units (a code point
    above the Basic Multilingual Plane becomes a surrogate pair). *)

Definition cont (b : N) : N := N.land b 63.

Definition codepoint_units (cp : N) : jsstring :=
  if cp <? 65536 then [cp]
  else let v := cp - 65536 in [55296 + N.shiftr v 10; 56320 + N.land v 1023].

Fixpoint utf8_decode (bs : list N) : jsstring :=
  match bs with
  | [] => []
  | b0 :: r0 =>
    if b0 <? 128 then b0 :: utf8_decode r0
    else match r0 with
    | [] => [b0]
    | b1 :: r1 =>
      if b0 <? 224 then (N.land b0 31 * 64 + cont b1) :: utf8_decode r1
      else match r1 with
      | [] => [b0; b1]
      | b2 :: r2 =>
        if b0 <? 240
        then (N.land b0 15 * 4096 + cont b1 * 64 + cont b2) :: utf8_decode r2
        else match r2 with
        | [] => [b0; b1; b2]
        | b3 :: r3 =>
          codepoint_units
            (N.land b0 7 * 262144 + cont b1 * 4096 + cont b2 * 64 + cont b3)
            ++ utf8_decode r3
        end
      end
    end
  end.

Definition lit (s : string) : jsstring :=
  utf8_decode (List.map N_of_ascii (list_ascii_of_string s)).

(** ** Code units the program names *)

Definition LF : codeunit := 10.      (* line feed *)
Definition CR : codeunit := 13.      (* carriage return *)
Definition QUOTE : codeunit := 34.   (* double quote *)
Definition COMMA : codeunit := 44.   (* comma *)
Definition SEMI : codeunit := 59.    (* semicolon *)
Definition PIPE : codeunit := 124.   (* vertical bar *)

(** ** Equality ([===] on strings) *)

Fixpoint eqb (a b : jsstring) : bool :=
  match a, b with
  | [], [] => true
  | x :: a', y :: b' => (x =? y) && eqb a' b'
  | _, _ => false
  end.

(** ** [String.prototype.trim]

    Removes leading and trailing WhiteSpace and LineTerminator code units:
    TAB, VT, FF, SP, NBSP, ZWNBSP, the Unicode space separators, LF, CR,
    LS and PS. *)

Definition isWhiteSpace (c : codeunit) : bool :=
  (c =? 9) || (c =? 10) || (c =? 11) || (c =? 12) || (c =? 13) || (c =? 32)
  || (c =? 160) || (c =? 5760) || ((8192 <=? c) && (c <=? 8202))
  || (c =? 8232) || (c =? 8233) || (c =? 8239) || (c =? 8287)
  || (c =? 12288) || (c =? 65279).

Fixpoint dropWhile (p : codeunit -> bool) (s : jsstring) : jsstring :=
  match s with
  | [] => []
  | c :: s' => if p c then dropWhile p s' else s
  end.

Definition trimStart (s : jsstring) : jsstring := dropWhile isWhiteSpace s.
Definition trimEnd (s : jsstring) : jsstring :=
  rev (dropWhile isWhiteSpace (rev s)).
Definition trim (s : jsstring) : jsstring := trimEnd (trimStart s).

(** Truthiness of a string: it is non-empty. *)
Definition truthy (s : jsstring) : bool :=
  match s with [] => false | _ :: _ => true end.

(** ** [String.prototype.split]

    [splitBy sep s] splits at every code unit that satisfies [sep]; it is
    the split on a comma for [sep = isComma] and [s.split(/[;|,]/)] for
    [sep = isTagSep].  The result always has at least one piece: the empty
    string splits to one empty piece. *)

Fixpoint splitBy (sep : codeunit -> bool) (s : jsstring) : list jsstring :=
  match s with
  | [] => [[]]
  | c :: s' =>
    if sep c then [] :: splitBy sep s'
    else match splitBy sep s' with
         | [] => [[c]]
         | p :: ps => (c :: p) :: ps
         end
  end.

Definition isComma (c : codeunit) : bool := c =? COMMA.
Definition isTagSep (c : codeunit) : bool :=
  (c =? SEMI) || (c =? PIPE) || (c =? COMMA).
Definition isLF (c : codeunit) : bool := c =? LF.

Definition startsLF (s : jsstring) : bool :=
  match s with d :: _ => d =? LF | [] => false end.

(** [s.split(/\r?\n/)]: the separator is a line feed, together with the
    carriage return right before it when there is one.  A carriage return
    that starts a separator is therefore dropped, any other code unit joins
    the current piece. *)
Fixpoint splitLines (s : jsstring) : list jsstring :=
  match s with
  | [] => [[]]
  | c :: s' =>
    if c =? LF then [] :: splitLines s'
    else if (c =? CR) && startsLF s' then splitLines s'
    else match splitLines s' with
         | [] => [[c]]
         | p :: ps => (c :: p) :: ps
         end
  end.

(** ** [Array.prototype.join]  *)

Fixpoint join (sep : jsstring) (l : list jsstring) : jsstring :=
  match l with
  | [] => []
  | [x] => x
  | x :: l' => x ++ sep ++ join sep l'
  end.

(** ** [String.prototype.includes] *)

Fixpoint startsWith (s p : jsstring) : bool :=
  match p, s with
  | [], _ => true
  | y :: p', x :: s' => (x =? y) && startsWith s' p'
  | _ :: _, [] => false
  end.

Fixpoint includes (s q : jsstring) : bool :=
  startsWith s q ||
  match s with
  | [] => false
  | _ :: s' => includes s' q
  end.

(** ** [Array.prototype.includes], [some], [findIndex], indexing *)

Definition arrIncludes (l : list jsstring) (x : jsstring) : bool :=
  existsb (eqb x) l.

Fixpoint findIndexFrom {A} (p : A -> bool) (i : Z) (l : list A) : Z :=
  match l with
  | [] => (-1)%Z
  | x :: l' => if p x then i else findIndexFrom p (i + 1)%Z l'
  end.

Definition findIndex {A} (p : A -> bool) (l : list A) : Z :=
  findIndexFrom p 0%Z l.

(** [l[i]] for an index that is not negative; [None] is [undefined]. *)
Definition at_ {A} (l : list A) (i : Z) : option A :=
  nth_error l (Z.to_nat i).

(** ** Numbers

    A number is an IEEE 754 binary64 value; [NaN], the two infinities and
    the two zeros are values of their own. *)

Definition number := spec_float.

Definition prec : Z := 53.
Definition emax : Z := 1024.

Definition NaN : number := S754_nan.

(** [Number.isNaN] *)
Definition isNaN (x : number) : bool :=
  match x with S754_nan => true | _ => false end.

(** [x <= y] and [x >= y]: both are false when an operand is [NaN]. *)
Definition le (x y : number) : bool := SFleb x y.
Definition ge (x y : number) : bool := SFleb y x.

(** The number nearest to [m * 10 ^ e] (ties to even), with sign [neg]. *)
Definition ofDecimal (neg : bool) (m : N) (e : Z) : number :=
  match m with
  | N0 => S754_zero neg
  | Npos p =>
    match e with
    | Zneg k =>
      let '(q, e2, l) :=
        SFdiv_core_binary prec emax (Zpos p) 0 (Z.pow 10 (Zpos k)) 0 in
      binary_round_aux prec emax neg q e2 l
    | _ => match (Zpos p * Z.pow 10 e)%Z with
           | Zpos v => binary_round prec emax neg v 0
           | _ => S754_zero neg
           end
    end
  end.

(** *** [Number(s)] on a string: StringToNumber

    Surrounding white space is ignored; the empty text is [+0]; text of the
    StrNumericLiteral grammar (a signed decimal literal with optional
    fraction and exponent, [Infinity], or an unsigned binary, octal or
    hexadecimal integer literal) is its value rounded to a number; any other
    text is [NaN]. *)

Definition isDigit (c : codeunit) : bool := (48 <=? c) && (c <=? 57).

Definition digitVal (radix : N) (c : codeunit) : option N :=
  let v := if (48 <=? c) && (c <=? 57) then Some (c - 48)
           else if (97 <=? c) && (c <=? 102) then Some (c - 87)
           else if (65 <=? c) && (c <=? 70) then Some (c - 55)
           else None in
  match v with
  | Some d => if d <? radix then Some d else None
  | None => None
  end.

(** The value of a non-empty run of digits in [radix]; [None] when a code
    unit is not a digit of the radix. *)
Fixpoint digitsFrom (radix : N) (acc : N) (s : jsstring) : option N :=
  match s with
  | [] => Some acc
  | c :: s' =>
    match digitVal radix c with
    | Some d => digitsFrom radix (acc * radix + d) s'
    | None => None
    end
  end.

Definition digits (radix : N) (s : jsstring) : option N :=
  match s with
  | [] => None
  | _ :: _ => digitsFrom radix 0 s
  end.

(** The longest prefix of decimal digits, and what follows it. *)
Fixpoint spanDigits (s : jsstring) : jsstring * jsstring :=
  match s with
  | [] => ([], [])
  | c :: s' =>
    if isDigit c then let '(d, r) := spanDigits s' in (c :: d, r)
    else ([], s)
  end.

(** NonDecimalIntegerLiteral: [0b], [0o], [0x] and at least one digit. *)
Definition nonDecimal (s : jsstring) : option number :=
  match s with
  | 48 :: p :: ds =>
    let radix := if (p =? 98) || (p =? 66) then Some 2
                 else if (p =? 111) || (p =? 79) then Some 8
                 else if (p =? 120) || (p =? 88) then Some 16
                 else None in
    match radix with
    | Some r => match digits r ds with
                | Some v => Some (ofDecimal false v 0)
                | None => None
                end
    | None => None
    end
  | _ => None
  end.

(** ExponentPart after the mantissa: nothing, or [e]/[E], an optional sign
    and at least one digit. *)
Definition exponentPart (s : jsstring) : option Z :=
  match s with
  | [] => Some 0%Z
  | c :: r =>
    if (c =? 101) || (c =? 69) then
      match r with
      | [] => None
      | sg :: r' =>
        if sg =? 45 then option_map (fun v => (- Z.of_N v)%Z) (digits 10 r')
        else if sg =? 43 then option_map Z.of_N (digits 10 r')
        else option_map Z.of_N (digits 10 r)
      end
    else None
  end.

(** StrUnsignedDecimalLiteral *)
Definition unsignedDecimal (neg : bool) (s : jsstring) : option number :=
  if eqb s (lit "Infinity") then Some (S754_infinity neg)
  else
    let '(ip, r1) := spanDigits s in
    let '(fp, r2) :=
      match r1 with
      | c :: r => if c =? 46 then spanDigits r else ([], r1)
      | [] => ([], [])
      end in
    match ip ++ fp with
    | [] => None
    | _ :: _ =>
      match digitsFrom 10 0 (ip ++ fp), exponentPart r2 with
      | Some m, Some e => Some (ofDecimal neg m (e - Z.of_nat (List.length fp)))
      | _, _ => None
      end
    end.

(** StrDecimalLiteral: an optional sign, then the unsigned literal. *)
Definition strDecimal (s : jsstring) : option number :=
  match s with
  | c :: r =>
    if c =? 43 then unsignedDecimal false r
    else if c =? 45 then unsignedDecimal true r
    else unsignedDecimal false s
  | [] => None
  end.

Definition strNumericLiteral (s : jsstring) : option number :=
  match nonDecimal s with
  | Some v => Some v
  | None => strDecimal s
  end.

Definition Number (s : jsstring) : number :=
  match trim s with
  | [] => S754_zero false
  | t => match strNumericLiteral t with
         | Some v => v
         | None => NaN
         end
  end.

End Js.

Import Js.

Notation "s +++ t" := (@app codeunit s t)
  (at level 60, right associativity, only parsing).

(* ================================================================== *)
(** * Exceptions                                                       *)
(* ================================================================== *)

(** What a call can throw: the [Error] that [assert] constructs, or a
    [TypeError] the engine raises when a property of [undefined] is read. *)
Inductive exn : Type :=
| Error (message : jsstring)
| TypeError (message : jsstring).

Inductive result (A : Type) : Type :=
| Ok (a : A)
| Throw (e : exn).

Arguments Ok {A} a.
Arguments Throw {A} e.

Definition bind {A B} (r : result A) (k : A -> result B) : result B :=
  match r with
  | Ok a => k a
  | Throw e => Throw e
  end.

Notation "r ;; k" := (bind r (fun _ => k))
  (at level 61, right associativity).
Notation "x <- r ;; k" := (bind r (fun x => k))
  (at level 61, r at next level, right associativity).

Definition message (e : exn) : jsstring :=
  match e with Error m | TypeError m => m end.

(** [String(e)]: the name of the error, then its message when it has one. *)
Definition errorToString (e : exn) : jsstring :=
  let nm := match e with
            | Error _ => lit "Error"
            | TypeError _ => lit "TypeError"
            end in
  if truthy (message e) then nm +++ lit ": " +++ message e else nm.

(* ================================================================== *)
(** * Data schema                                                      *)
(* ================================================================== *)

(** [type Center]; a field marked optional in the source is an [option]. *)
Record Center : Type := {
  id : jsstring;
  name : jsstring;
  address : option jsstring;
  lat : number;
  lng : number;
  phone : option jsstring;
  hours : option jsstring;
  note : option jsstring;
  tags : option (list jsstring)
}.

(** [LngLatBoundsLike] as the program writes it: [[w, s], [e, n]]. *)
Definition Bounds : Type := (number * number) * (number * number).

Definition INITIAL_CENTERS : list Center := [].

(* ================================================================== *)
(** * Guards                                                           *)
(* ================================================================== *)

Definition assert (condition : bool) (msg : jsstring) : result unit :=
  if condition then Ok tt else Throw (Error (lit "Test failed: " +++ msg)).

(** [data.forEach(f)] where [f] may throw: the first throw ends the loop. *)
Fixpoint forEach {A} (f : A -> result unit) (data : list A) : result unit :=
  match data with
  | [] => Ok tt
  | c :: rest => f c ;; forEach f rest
  end.

(** The body of the [forEach] callback of [validateCenters].  The fields
    have the types of [Center], so the [typeof] conjuncts hold. *)
Definition validateCenter (bounds : option Bounds) (c : Center) : result unit :=
  assert (0 <? List.length (id c))%nat (lit "invalid id for " +++ name c) ;;
  assert (0 <? List.length (name c))%nat (lit "invalid name for " +++ id c) ;;
  assert (negb (isNaN (lat c))) (lit "lat must be number: " +++ id c) ;;
  assert (negb (isNaN (lng c))) (lit "lng must be number: " +++ id c) ;;
  match bounds with
  | Some ((w, s), (e, n)) =>
    assert (ge (lat c) s && le (lat c) n) (lit "lat out of bounds: " +++ id c) ;;
    assert (ge (lng c) w && le (lng c) e) (lit "lng out of bounds: " +++ id c)
  | None => Ok tt
  end.

Definition validateCenters (data : list Center) (bounds : option Bounds)
  : result unit :=
  forEach (validateCenter bounds) data.

(* ================================================================== *)
(** * CSV parsers                                                      *)
(* ================================================================== *)

(** The column indices a parser reads off the header row. *)
Record Columns : Type := {
  idI : Z; nameI : Z; addrI : Z; latI : Z; lngI : Z;
  phoneI : Z; hoursI : Z; noteI : Z; tagsI : Z
}.

Definition headerMessage : jsstring :=
  lit "CSV header must include id,name,lat,lng".

Definition requiredPresent (cols : Columns) : bool :=
  (0 <=? idI cols)%Z && (0 <=? nameI cols)%Z
  && (0 <=? latI cols)%Z && (0 <=? lngI cols)%Z.

(** ** The comma-splitting parser (src/App.tsx)

    [toLowerCase] is [String.prototype.toLowerCase], the Unicode lower-case
    mapping of the platform; the development assumes nothing about it. *)
Module CommaParser.
Section Parser.

Variable toLowerCase : jsstring -> jsstring.

Definition nonBlank (l : jsstring) : bool := (0 <? List.length (trim l))%nat.

(** [idx] *)
Definition idx (header : list jsstring) (k : jsstring) : Z :=
  findIndex (fun h => eqb (toLowerCase h) k) header.

Definition columns (header : list jsstring) : Columns :=
  {| idI := idx header (lit "id"); nameI := idx header (lit "name");
     addrI := idx header (lit "address"); latI := idx header (lit "lat");
     lngI := idx header (lit "lng"); phoneI := idx header (lit "phone");
     hoursI := idx header (lit "hours"); noteI := idx header (lit "note");
     tagsI := idx header (lit "tags") |}.

(** [get]: the trimmed cell, the empty string when the column or the cell
    is missing. *)
Definition get (cells : list jsstring) (i : Z) : jsstring :=
  if (0 <=? i)%Z then
    match at_ cells i with
    | Some c => trim c
    | None => []
    end
  else [].

Definition parseTags (tagsRaw : jsstring) : list jsstring :=
  if truthy tagsRaw
  then filter truthy (map trim (splitBy isTagSep tagsRaw))
  else [].

Definition record (cols : Columns) (cells : list jsstring) : Center :=
  let lat := Number (get cells (latI cols)) in
  let lng := Number (get cells (lngI cols)) in
  let tagsRaw := get cells (tagsI cols) in
  let tags := parseTags tagsRaw in
  {| id := get cells (idI cols); name := get cells (nameI cols);
     address := Some (get cells (addrI cols)); lat := lat; lng := lng;
     phone := Some (get cells (phoneI cols));
     hours := Some (get cells (hoursI cols));
     note := Some (get cells (noteI cols)); tags := Some tags |}.

(** The [for (const row of rows)] loop; [out] is the array pushed to. *)
Fixpoint rowsLoop (cols : Columns) (rows : list jsstring) (out : list Center)
  : list Center :=
  match rows with
  | [] => out
  | row :: rest =>
    let cells := splitBy isComma row in
    if (List.length cells =? 1)%nat && eqb (trim (nth 0 cells [])) []
    then rowsLoop cols rest out
    else rowsLoop cols rest (out ++ [record cols cells])
  end.

Definition parseCSV (text : jsstring) : result (list Center) :=
  let lines := filter nonBlank (splitLines text) in
  match lines with
  | [] => Ok []
  | line0 :: rows =>
    let header := map trim (splitBy isComma line0) in
    let cols := columns header in
    assert (requiredPresent cols) headerMessage ;;
    Ok (rowsLoop cols rows [])
  end.

End Parser.
End CommaParser.

(** ** The quote-aware parser (the later revision of the component) *)
Module QuoteParser.
Section Parser.

Variable toLowerCase : jsstring -> jsstring.

(** The first loop of [parseCSV]: [rows] and [cur] after the scan of
    [text], started in the state [cur], [inQ], [rows]. *)
Fixpoint scanRows (text cur : jsstring) (inQ : bool) (rows : list jsstring)
  : list jsstring * jsstring :=
  match text with
  | [] => (rows, cur)
  | ch :: rest =>
    if ch =? QUOTE then
      match rest with
      | next :: rest' =>
        if next =? QUOTE then scanRows rest' (cur ++ [QUOTE]) inQ rows
        else scanRows rest cur (negb inQ) rows
      | [] => scanRows rest cur (negb inQ) rows
      end
    else if (ch =? LF) && negb inQ then scanRows rest [] inQ (rows ++ [cur])
    else scanRows rest (cur ++ [ch]) inQ rows
  end.

Definition rowsOf (text : jsstring) : list jsstring :=
  let '(rows, cur) := scanRows text [] false [] in
  if (0 <? List.length (trim cur))%nat then rows ++ [cur] else rows.

(** [getIdx] *)
Definition getIdx (header : list jsstring) (k : jsstring) : Z :=
  findIndex (fun h => eqb h k) header.

Definition columns (header : list jsstring) : Columns :=
  {| idI := getIdx header (lit "id"); nameI := getIdx header (lit "name");
     addrI := getIdx header (lit "address"); latI := getIdx header (lit "lat");
     lngI := getIdx header (lit "lng"); phoneI := getIdx header (lit "phone");
     hoursI := getIdx header (lit "hours"); noteI := getIdx header (lit "note");
     tagsI := getIdx header (lit "tags") |}.

(** [splitRow]: [out] after the scan of [r], started in [cell], [q], [out]. *)
Fixpoint splitRowFrom (r cell : jsstring) (q : bool) (out : list jsstring)
  : list jsstring :=
  match r with
  | [] => out ++ [trim cell]
  | ch :: rest =>
    if ch =? QUOTE then
      match rest with
      | next :: rest' =>
        if next =? QUOTE then splitRowFrom rest' (cell ++ [QUOTE]) q out
        else splitRowFrom rest cell (negb q) out
      | [] => splitRowFrom rest cell (negb q) out
      end
    else if (ch =? COMMA) && negb q
    then splitRowFrom rest [] q (out ++ [trim cell])
    else splitRowFrom rest (cell ++ [ch]) q out
  end.

Definition splitRow (r : jsstring) : list jsstring :=
  splitRowFrom r [] false [].

(** [val] *)
Definition val (cells : list jsstring) (i : Z) : jsstring :=
  if (0 <=? i)%Z then
    trim (match at_ cells i with Some c => c | None => [] end)
  else [].

Definition parseTags (v : jsstring) : list jsstring :=
  filter truthy (map trim (splitBy isTagSep (if truthy v then v else []))).

Definition record (cols : Columns) (cells : list jsstring) : Center :=
  let lat := Number (val cells (latI cols)) in
  let lng := Number (val cells (lngI cols)) in
  let tags := parseTags (val cells (tagsI cols)) in
  {| id := val cells (idI cols); name := val cells (nameI cols);
     address := Some (val cells (addrI cols)); lat := lat; lng := lng;
     phone := Some (val cells (phoneI cols));
     hours := Some (val cells (hoursI cols));
     note := Some (val cells (noteI cols)); tags := Some tags |}.

(** The [for (const r of rows.slice(1))] loop. *)
Fixpoint rowsLoop (cols : Columns) (rows : list jsstring) (out : list Center)
  : list Center :=
  match rows with
  | [] => out
  | r :: rest =>
    if negb (truthy (trim r)) then rowsLoop cols rest out
    else rowsLoop cols rest (out ++ [record cols (splitRow r)])
  end.

(** What the engine reports when [rows[0]] is [undefined] (wording of V8). *)
Definition undefinedSplit : exn :=
  TypeError (lit "Cannot read properties of undefined (reading 'split')").

Definition parseCSV (text : jsstring) : result (list Center) :=
  match rowsOf text with
  | [] => Throw undefinedSplit
  | row0 :: rest =>
    let header := map (fun h => toLowerCase (trim h)) (splitBy isComma row0) in
    let cols := columns header in
    assert (requiredPresent cols) headerMessage ;;
    Ok (rowsLoop cols rest [])
  end.

End Parser.
End QuoteParser.

(* ================================================================== *)
(** * The component: derivations and admin handlers                    *)
(* ================================================================== *)

(** One feature of the GeoJSON document handed to the map. *)
Module Feature.
Record properties : Type := {
  id : jsstring;
  name : jsstring;
  address : option jsstring;
  phone : option jsstring;
  hours : option jsstring;
  note : option jsstring;
  tags : jsstring;
  examType : jsstring
}.
Record t : Type := {
  props : properties;
  coordinates : number * number
}.
End Feature.

(** [c.tags || []] *)
Definition tagsOf (c : Center) : list jsstring :=
  match tags c with Some l => l | None => [] end.

(** How [join] prints an element: [undefined] is the empty string. *)
Definition orEmpty (s : option jsstring) : jsstring :=
  match s with Some x => x | None => [] end.

Definition hasTag (c : Center) (t : jsstring) : bool :=
  existsb (fun x => eqb (trim x) t) (tagsOf c).

Definition PRACTICAL : jsstring := lit "실기(작업)".
Definition WRITTEN : jsstring := lit "필기".
Definition OTHER : jsstring := lit "기타".

Definition examType (c : Center) : jsstring :=
  if hasTag c PRACTICAL then PRACTICAL
  else if hasTag c WRITTEN then WRITTEN
  else OTHER.

Definition feature (c : Center) : Feature.t :=
  {| Feature.props :=
       {| Feature.id := id c; Feature.name := name c;
          Feature.address := address c; Feature.phone := phone c;
          Feature.hours := hours c; Feature.note := note c;
          Feature.tags := join (lit ", ") (tagsOf c);
          Feature.examType := examType c |};
     Feature.coordinates := (lng c, lat c) |}.

(** The [features] of [geojson]. *)
Definition geojson (filtered : list Center) : list Feature.t :=
  map feature filtered.

(** The jurisdiction bound [[126.96, 37.43], [127.18, 37.59]]. *)
Definition TARGET_BOUNDS : Bounds :=
  ((ofDecimal false 12696 (-2), ofDecimal false 3743 (-2)),
   (ofDecimal false 12718 (-2), ofDecimal false 3759 (-2))).

(** [e?.message || String(e)] *)
Definition surfaced (e : exn) : jsstring :=
  if truthy (message e) then message e else errorToString e.

Record AppState : Type := {
  query : jsstring;
  centers : list Center;
  csvError : option jsstring;
  activeTags : list jsstring
}.

Definition setCenters (v : list Center) (st : AppState) : AppState :=
  {| query := query st; centers := v; csvError := csvError st;
     activeTags := activeTags st |}.

Definition setCsvError (v : option jsstring) (st : AppState) : AppState :=
  {| query := query st; centers := centers st; csvError := v;
     activeTags := activeTags st |}.

Section Component.

Variable toLowerCase : jsstring -> jsstring.

(** The parser the component is built with: either variant of [parseCSV]. *)
Variable parseCSV : jsstring -> result (list Center).

(** The string a record is searched in:
    [[c.name, c.address, c.note, ...(c.tags || [])].join(" ")]. *)
Definition searchText (c : Center) : jsstring :=
  join (lit " ")
       ([name c; orEmpty (address c); orEmpty (note c)] ++ tagsOf c).

Definition matchesQuery (q : jsstring) (c : Center) : bool :=
  includes (toLowerCase (searchText c)) q.

Definition matchesTags (activeTags : list jsstring) (c : Center) : bool :=
  existsb (fun t => arrIncludes activeTags t) (tagsOf c).

Definition filtered (centers : list Center) (query : jsstring)
           (activeTags : list jsstring) : list Center :=
  let q := toLowerCase (trim query) in
  let arr := centers in
  let arr := if truthy q then filter (matchesQuery q) arr else arr in
  let arr := if (0 <? List.length activeTags)%nat
             then filter (matchesTags activeTags) arr else arr in
  arr.

(** The body of the [try] block of both handlers. *)
Definition parseAndValidate (text : jsstring) : result (list Center) :=
  parsed <- parseCSV text ;;
  validateCenters parsed (Some TARGET_BOUNDS) ;;
  Ok parsed.

Definition onPasteCSV (text : jsstring) (st : AppState) : AppState :=
  let st := setCsvError None st in
  match parseAndValidate text with
  | Ok parsed => setCenters parsed st
  | Throw e => setCsvError (Some (surfaced e)) st
  end.

(** [file] is the outcome of [await file.text()]: the text of the file, or
    the rejection of the read. *)
Definition onUploadCSV (file : result jsstring) (st : AppState) : AppState :=
  let st := setCsvError None st in
  match (text <- file ;; parseAndValidate text) with
  | Ok parsed => setCenters parsed st
  | Throw e => setCsvError (Some (surfaced e)) st
  end.

End Component.

(** [toLowerCase] on text of the Basic Latin block, where it maps the
    letters A to Z to a to z and nothing else; it instantiates the platform
    function in the examples below, whose text is Basic Latin or Hangul
    (which has no case). *)
Definition asciiLower (s : jsstring) : jsstring :=
  map (fun c => if (65 <=? c) && (c <=? 90) then c + 32 else c)%N s.

(* ================================================================== *)
(** * What the specification says, as predicates                       *)
(* ================================================================== *)

(** ** The invariants of a record *)

Definition inBounds (b : Bounds) (c : Center) : Prop :=
  let '((w, s), (e, n)) := b in
  (ge (lat c) s = true /\ le (lat c) n = true)
  /\ (ge (lng c) w = true /\ le (lng c) e = true).

Definition wellFormed (bounds : option Bounds) (c : Center) : Prop :=
  id c <> [] /\ name c <> []
  /\ isNaN (lat c) = false /\ isNaN (lng c) = false
  /\ match bounds with Some b => inBounds b c | None => True end.

(** [violation bounds c msg]: [msg] names the first invariant, in the order
    id, name, lat, lng, lat range, lng range, that [c] breaks. *)
Inductive violation (bounds : option Bounds) (c : Center) : jsstring -> Prop :=
| bad_id :
    id c = [] ->
    violation bounds c (lit "invalid id for " +++ name c)
| bad_name :
    id c <> [] -> name c = [] ->
    violation bounds c (lit "invalid name for " +++ id c)
| bad_lat :
    id c <> [] -> name c <> [] -> isNaN (lat c) = true ->
    violation bounds c (lit "lat must be number: " +++ id c)
| bad_lng :
    id c <> [] -> name c <> [] -> isNaN (lat c) = false ->
    isNaN (lng c) = true ->
    violation bounds c (lit "lng must be number: " +++ id c)
| lat_outside : forall w s e n,
    bounds = Some ((w, s), (e, n)) ->
    id c <> [] -> name c <> [] -> isNaN (lat c) = false ->
    isNaN (lng c) = false ->
    ~ (ge (lat c) s = true /\ le (lat c) n = true) ->
    violation bounds c (lit "lat out of bounds: " +++ id c)
| lng_outside : forall w s e n,
    bounds = Some ((w, s), (e, n)) ->
    id c <> [] -> name c <> [] -> isNaN (lat c) = false ->
    isNaN (lng c) = false ->
    ge (lat c) s = true /\ le (lat c) n = true ->
    ~ (ge (lng c) w = true /\ le (lng c) e = true) ->
    violation bounds c (lit "lng out of bounds: " +++ id c).

(** ** The two parsers and their header row *)

Inductive variant : Type := Comma | Quoted.

Definition parseCSV_of (v : variant) (toLowerCase : jsstring -> jsstring)
  : jsstring -> result (list Center) :=
  match v with
  | Comma => CommaParser.parseCSV toLowerCase
  | Quoted => QuoteParser.parseCSV toLowerCase
  end.

(** The row a parser reads as the header: the first non-blank line for the
    comma-splitting parser, the first logical row for the quote-aware one. *)
Definition headerRow (v : variant) (text : jsstring) : option jsstring :=
  match v with
  | Comma => hd_error (filter CommaParser.nonBlank (splitLines text))
  | Quoted => hd_error (QuoteParser.rowsOf text)
  end.

(** The rows after the header row. *)
Definition dataRows (v : variant) (text : jsstring) : list jsstring :=
  match v with
  | Comma => tl (filter CommaParser.nonBlank (splitLines text))
  | Quoted => tl (QuoteParser.rowsOf text)
  end.

(** The column names of a header row, compared without regard to case:
    split on commas, trimmed, lower-cased. *)
Definition headerNames (toLowerCase : jsstring -> jsstring) (row : jsstring)
  : list jsstring :=
  map (fun h => toLowerCase (trim h)) (splitBy isComma row).

Definition required : list jsstring :=
  [lit "id"; lit "name"; lit "lat"; lit "lng"].

Definition headerError : exn := Error (lit "Test failed: " +++ headerMessage).

(** ** Category derivation *)

(** The reading by literal membership: the category is decided by which of
    the two literal tags are elements of the tag list. *)
Definition classifiedByLiteralTags (c : Center) : Prop :=
  (In PRACTICAL (tagsOf c) -> examType c = PRACTICAL)
  /\ (~ In PRACTICAL (tagsOf c) -> In WRITTEN (tagsOf c) ->
      examType c = WRITTEN)
  /\ (~ In PRACTICAL (tagsOf c) -> ~ In WRITTEN (tagsOf c) ->
      examType c = OTHER).

(** [carries t c]: some tag of [c] is [t] once its surrounding white space
    is trimmed. *)
Definition carries (t : jsstring) (c : Center) : Prop :=
  exists x, In x (tagsOf c) /\ trim x = t.

(** ** Filtering *)




(** The two stages of [filtered]. *)
Definition textStage (toLowerCase : jsstring -> jsstring) (q : jsstring)
           (arr : list Center) : list Center :=
  if truthy q then filter (matchesQuery toLowerCase q) arr else arr.

Definition tagStage (activeTags : list jsstring) (arr : list Center)
  : list Center :=
  if (0 <? List.length activeTags)%nat
  then filter (matchesTags activeTags) arr else arr.

(** ** Sample data *)

Definition sampleCenter (nm : jsstring) (tgs : list jsstring) : Center :=
  {| id := lit "c1"; name := nm; address := None;
     lat := ofDecimal false 3750 (-2); lng := ofDecimal false 12705 (-2);
     phone := None; hours := None; note := None; tags := Some tgs |}.

Definition emptyState : AppState :=
  {| query := []; centers := INITIAL_CENTERS; csvError := None;
     activeTags := [] |}.

(** [id,name,lat,lng,tags] and one row inside the jurisdiction bound. *)
Definition sampleText : jsstring :=
  lit "id,name,lat,lng,tags" +++ [LF]
  +++ lit "c1,Test Center,37.50,127.05,필기;실기(작업)".

(** A row whose latitude 200 is outside every bound of the map. *)
Definition outOfBoundsText : jsstring :=
  lit "ID,Name,Lat,Lng" +++ [LF] +++ lit "c1,Test Center,200,127.05".

(** A header without the [lng] column. *)
Definition noLngText : jsstring :=
  lit "id,name,lat" +++ [LF] +++ lit "c1,Test Center,37.50".

(** A row whose latitude cell is empty. *)
Definition emptyLatText : jsstring :=
  lit "id,name,lat,lng" +++ [LF] +++ lit "c1,Test Center,,127.05".

(** A row whose latitude cell is not numeric text. *)
Definition badLatText : jsstring :=
  lit "id,name,lat,lng" +++ [LF] +++ lit "c1,Test Center,north,127.05".

(** ** Plain texts, on which the two parsers are compared *)

(** Some line break of the text is a carriage return and a line feed. *)
Fixpoint hasCRLF (text : jsstring) : bool :=
  match text with
  | [] => false
  | c :: rest => ((c =? CR) && startsLF rest) || hasCRLF rest
  end.

(** The text up to its first line feed. *)
Definition firstLine (text : jsstring) : jsstring :=
  hd [] (splitBy isLF text).

(** [cur] put in front of the first piece of a split. *)
Definition prefixFirst (cur : jsstring) (pieces : list jsstring)
  : list jsstring :=
  (cur ++ hd [] pieces) :: tl pieces.

(** The last piece of a scan, kept only when it is not blank. *)
Definition keptLast (cur : jsstring) : list jsstring :=
  if CommaParser.nonBlank cur then [cur] else [].

(** ** Coordinate cells *)

(** The columns the comma-splitting parser reads off a header row. *)
Definition columnsOf (toLowerCase : jsstring -> jsstring) (hrow : jsstring)
  : Columns :=
  CommaParser.columns toLowerCase (map trim (splitBy isComma hrow)).

(** The trimmed latitude and longitude cells of a data row. *)
Definition latCell (toLowerCase : jsstring -> jsstring)
           (hrow row : jsstring) : jsstring :=
  CommaParser.get (splitBy isComma row) (latI (columnsOf toLowerCase hrow)).

Definition lngCell (toLowerCase : jsstring -> jsstring)
           (hrow row : jsstring) : jsstring :=
  CommaParser.get (splitBy isComma row) (lngI (columnsOf toLowerCase hrow)).

(** Text that is a valid number: after trimming, it is a numeric literal. *)
Definition numericText (s : jsstring) : Prop :=
  exists v, strNumericLiteral (trim s) = Some v.

(** "A row with a coordinate cell that is not a valid number makes the
    validator reject the parse", for one text and one bound. *)
Definition invalidCellRejected (toLowerCase : jsstring -> jsstring)
           (text : jsstring) (bounds : option Bounds) : Prop :=
  forall hrow row recs,
    headerRow Comma text = Some hrow ->
    In row (dataRows Comma text) ->
    CommaParser.parseCSV toLowerCase text = Ok recs ->
    ~ numericText (latCell toLowerCase hrow row)
    \/ ~ numericText (lngCell toLowerCase hrow row) ->
    exists e, validateCenters recs bounds = Throw e.

(** A decidable form of "no quote in the text". *)
Definition noQuote (text : jsstring) : bool :=
  forallb (fun c => negb (c =? QUOTE)) text.

(** A quoted name that holds a comma, and a quoted note that holds a line
    feed. *)
Definition quotedText : jsstring :=
  lit "id,name,lat,lng,note" +++ [LF]
  +++ lit "c1," +++ [QUOTE] +++ lit "Hall, East" +++ [QUOTE]
  +++ lit ",37.50,127.05," +++ [QUOTE] +++ lit "Gate 2" +++ [LF]
  +++ lit "3rd floor" +++ [QUOTE].

(** What a successful parse returned, the empty list on a throw. *)
Definition recordsOf (r : result (list Center)) : list Center :=
  match r with Ok l => l | Throw _ => [] end.

(** ** Proof steps *)

(** Case analysis on the condition of the next [assert] of the goal. *)
Ltac case_assert H :=
  match goal with
  | |- context [assert ?b ?m] =>
    let E := fresh H in destruct b eqn:E; simpl
  end.


(* ================================================================== *)
(** * More of the platform                                             *)
(* ================================================================== *)

(** [a < b] on strings: the order of their code units, a proper prefix
    first.  It is the order the default [Array.prototype.sort] puts
    strings in. *)
Fixpoint strLt (a b : jsstring) : bool :=
  match a, b with
  | _, [] => false
  | [], _ :: _ => true
  | x :: a', y :: b' => (x <? y)%N || ((x =? y)%N && strLt a' b')
  end.

(** [arr.sort()] on an array of strings.  The sort is stable and equal
    strings are the same value, so the sorted array does not depend on the
    algorithm; insertion sort stands for it. *)
Fixpoint insertSorted (x : jsstring) (l : list jsstring) : list jsstring :=
  match l with
  | [] => [x]
  | y :: l' => if strLt x y then x :: l else y :: insertSorted x l'
  end.

Fixpoint arraySort (l : list jsstring) : list jsstring :=
  match l with
  | [] => []
  | x :: l' => insertSorted x (arraySort l')
  end.

(** [s.add(x)] on a [Set] of strings, kept as the list of its elements in
    insertion order. *)
Definition setAdd (s : list jsstring) (x : jsstring) : list jsstring :=
  if arrIncludes s x then s else s ++ [x].

(** [Math.min] and [Math.max] of two numbers: NaN when an operand is NaN,
    and the negative zero is below the positive one. *)
Definition mathMin (x y : number) : number :=
  if isNaN x || isNaN y then NaN
  else match SFcompare x y with
       | Some Lt => x
       | Some Gt => y
       | _ => match x, y with
              | S754_zero sx, S754_zero sy => S754_zero (sx || sy)
              | _, _ => x
              end
       end.

Definition mathMax (x y : number) : number :=
  if isNaN x || isNaN y then NaN
  else match SFcompare x y with
       | Some Gt => x
       | Some Lt => y
       | _ => match x, y with
              | S754_zero sx, S754_zero sy => S754_zero (sx && sy)
              | _, _ => x
              end
       end.

(* ================================================================== *)
(** * More of the component                                            *)
(* ================================================================== *)

(** ** Tag universe and tag selection *)

(** [allTags]: every tag of every record, trimmed, collected in a [Set] and
    sorted. *)
Definition allTags (centers : list Center) : list jsstring :=
  let s :=
    fold_left
      (fun s c => fold_left (fun s t => setAdd s (trim t)) (tagsOf c) s)
      centers [] in
  arraySort s.

(** The update [toggleTag] applies to [activeTags]. *)
Definition toggleTag (t : jsstring) (prev : list jsstring) : list jsstring :=
  if arrIncludes prev t
  then filter (fun x => negb (eqb x t)) prev
  else prev ++ [t].

Definition clearTags : list jsstring := [].

Definition setActiveTags (v : list jsstring) (st : AppState) : AppState :=
  {| query := query st; centers := centers st; csvError := csvError st;
     activeTags := v |}.

Definition setQuery (v : jsstring) (st : AppState) : AppState :=
  {| query := v; centers := centers st; csvError := csvError st;
     activeTags := activeTags st |}.

(** ** Flying to a record *)

(** The corners of a [LngLatBounds] built from [[w, s], [e, n]]. *)
Definition getWest (b : Bounds) : number := fst (fst b).
Definition getSouth (b : Bounds) : number := snd (fst b).
Definition getEast (b : Bounds) : number := fst (snd b).
Definition getNorth (b : Bounds) : number := snd (snd b).

(** [flyToCenter]: the [center] handed to [map.easeTo], as [(lng, lat)]. *)
Definition flyToCenter (lng lat : number) : number * number :=
  let target := TARGET_BOUNDS in
  let clampedLng := mathMax (getWest target) (mathMin lng (getEast target)) in
  let clampedLat := mathMax (getSouth target) (mathMin lat (getNorth target)) in
  (clampedLng, clampedLat).

(** ** Smoke tests *)

(** What [runSmokeTests] reads of the map: whether its style has glyphs,
    and the ids of its layers. *)
Record MapView : Type := {
  glyphs : bool;
  layerIds : list jsstring
}.

(** [map.getLayer(id)] is defined exactly for the ids of the layers. *)
Definition getLayer (m : MapView) (i : jsstring) : bool :=
  arrIncludes (layerIds m) i.

Definition smokeLayers : list jsstring :=
  [lit "clusters"; lit "cluster-count"; lit "unclustered"; lit "labels";
   lit "outside-mask"; lit "region-outline"].

Definition glyphsMessage : jsstring :=
  lit "style.glyphs missing (required for " +++ [QUOTE] +++ lit "text-field"
  +++ [QUOTE] +++ lit ")".

Definition runSmokeTests (m : MapView) : result unit :=
  assert (glyphs m) glyphsMessage ;;
  forEach (fun i => assert (getLayer m i) (lit "layer not found: " +++ i))
          smokeLayers.

(** ** The public data load *)

(** The outcome of [await fetch(url)]: the promise rejects, or resolves to
    a response with its [ok] flag and the outcome of reading its body. *)
Inductive Fetch (A : Type) : Type :=
| Rejected (e : exn)
| Response (ok : bool) (body : result A).

Arguments Rejected {A} e.
Arguments Response {A} ok body.

(** What [res.json()] yields: a value that is not an array, or an array,
    whose elements the component takes at type [Center]. *)
Inductive Json : Type :=
| NotArray
| JsonArray (data : list Center).

(** The effect that loads the public data, on the outcomes of its two
    fetches; the second one is consulted only when the load gets that far.
    A throw anywhere ends the load in the [catch], which only logs. *)
Section PublicLoad.

Variable parseCSV : jsstring -> result (list Center).

Definition loadCsvFallback (csvRes : Fetch jsstring) (st : AppState)
  : result AppState :=
  match csvRes with
  | Rejected e => Throw e
  | Response true body =>
    text <- body ;;
    parsed <- parseCSV text ;;
    if (0 <? List.length parsed)%nat
    then validateCenters parsed None ;; Ok (setCenters parsed st)
    else Ok st
  | Response false _ => Ok st
  end.

Definition loadPublicBody (jsonRes : Fetch Json) (csvRes : Fetch jsstring)
           (st : AppState) : result AppState :=
  match jsonRes with
  | Rejected e => Throw e
  | Response true body =>
    data <- body ;;
    match data with
    | JsonArray (c :: rest) =>
      validateCenters (c :: rest) None ;; Ok (setCenters (c :: rest) st)
    | _ => loadCsvFallback csvRes st
    end
  | Response false _ => loadCsvFallback csvRes st
  end.

Definition loadPublic (admin : bool) (jsonRes : Fetch Json)
           (csvRes : Fetch jsstring) (st : AppState) : AppState :=
  if admin then st
  else match loadPublicBody jsonRes csvRes st with
       | Ok st' => st'
       | Throw _ => st
       end.

(** ** Sessions *)

(** What can happen to the component after it is mounted. *)
Inductive Event : Type :=
| PublicLoaded (jsonRes : Fetch Json) (csvRes : Fetch jsstring)
| Pasted (text : jsstring)
| Uploaded (file : result jsstring)
| QueryTyped (q : jsstring)
| TagToggled (t : jsstring)
| TagsCleared.

(** The upload controls exist in admin mode only, and the public load runs
    in the other mode only. *)
Definition step (admin : bool) (st : AppState) (ev : Event) : AppState :=
  match ev with
  | PublicLoaded j c => loadPublic admin j c st
  | Pasted text => if admin then onPasteCSV parseCSV text st else st
  | Uploaded file => if admin then onUploadCSV parseCSV file st else st
  | QueryTyped q => setQuery q st
  | TagToggled t => setActiveTags (toggleTag t (activeTags st)) st
  | TagsCleared => setActiveTags clearTags st
  end.

Definition run (admin : bool) (evs : list Event) (st : AppState) : AppState :=
  fold_left (step admin) evs st.

End PublicLoad.

(* ================================================================== *)
(** * The build script                                                 *)
(* ================================================================== *)

(** The [tags] of a normalised row of the CSV to JSON script; [cell] is
    [o.tags], [None] when the row has no such key. *)
Definition replacePipes (s : jsstring) : jsstring :=
  map (fun c => if (c =? PIPE)%N then SEMI else c) s.

Definition isSemiOrComma (c : codeunit) : bool :=
  ((c =? SEMI) || (c =? COMMA))%N.

Definition normTags (cell : option jsstring) : list jsstring :=
  let s := match cell with
           | Some v => if truthy v then v else []
           | None => []
           end in
  filter truthy (map trim (splitBy isSemiOrComma (replacePipes s))).

(* ================================================================== *)
(** * Further predicates                                               *)
(* ================================================================== *)

(** A tag as the parsers produce it: not empty, without surrounding white
    space and without a separator. *)
Definition cleanTag (t : jsstring) : Prop :=
  t <> [] /\ trim t = t /\ forall c, In c t -> isTagSep c = false.

Definition trimmedField (f : option jsstring) : Prop :=
  exists s, f = Some s /\ trim s = s.

(** A record as the parsers produce it. *)
Definition tidyRecord (c : Center) : Prop :=
  trim (id c) = id c /\ trim (name c) = name c
  /\ trimmedField (address c) /\ trimmedField (phone c)
  /\ trimmedField (hours c) /\ trimmedField (note c)
  /\ exists l, tags c = Some l /\ Forall cleanTag l.

(** The record a parser builds from the cells of a row. *)
Definition recordOf (v : variant) : Columns -> list jsstring -> Center :=
  match v with
  | Comma => CommaParser.record
  | Quoted => QuoteParser.record
  end.

(** A number that is neither NaN nor an infinity. *)
Definition isFinite (x : number) : bool :=
  match x with
  | S754_zero _ | S754_finite _ _ _ => true
  | _ => false
  end.

(** Strictly ascending in the order of the code units. *)
Definition ascending : list jsstring -> Prop :=
  StronglySorted (fun a b => strLt a b = true).


(** What every state of a session satisfies. *)
Definition sessionInvariant (admin : bool) (st : AppState) : Prop :=
  NoDup (activeTags st)
  /\ Forall (wellFormed None) (centers st)
  /\ (admin = true -> Forall (wellFormed (Some TARGET_BOUNDS)) (centers st)).

(** [v] clamped to the interval from [lo] to [hi], as [flyToCenter] does. *)
Definition clamp (lo hi v : number) : number := mathMax lo (mathMin v hi).

(** [v] lies between [lo] and [hi], ends included. *)
Definition between (lo hi v : number) : Prop :=
  le lo v = true /\ le v hi = true.

(** Two quotes stand side by side somewhere in the text. *)
Fixpoint hasDoubledQuote (text : jsstring) : bool :=
  match text with
  | [] => false
  | c :: rest =>
    ((c =? QUOTE)%N
     && match rest with d :: _ => (d =? QUOTE)%N | [] => false end)
    || hasDoubledQuote rest
  end.

(** The text with every carriage return that stands right before a line
    feed removed: CR LF line breaks turned into LF line breaks. *)
Fixpoint dropBreakCR (text : jsstring) : jsstring :=
  match text with
  | [] => []
  | c :: rest =>
    if (c =? CR)%N && startsLF rest then dropBreakCR rest
    else c :: dropBreakCR rest
  end.

(** [a] is [b], or [b] followed by one carriage return. *)
Definition sameUpToCR (a b : jsstring) : Prop :=
  a = b \/ a = b ++ [CR].

(** The comma-splitting parser from its non-blank lines on. *)
Definition parseLines (toLowerCase : jsstring -> jsstring)
           (lines : list jsstring) : result (list Center) :=
  match lines with
  | [] => Ok []
  | line0 :: rows =>
    let header := map trim (splitBy isComma line0) in
    let cols := CommaParser.columns toLowerCase header in
    assert (requiredPresent cols) headerMessage ;;
    Ok (CommaParser.rowsLoop cols rows [])
  end.

(* ================================================================== *)
(** * Facts about the platform functions                               *)
(* ================================================================== *)

Lemma eqb_eq (a b : jsstring) : eqb a b = true <-> a = b.
Proof.
  revert b; induction a as [|x a IH]; intros [|y b]; simpl;
    try (split; [discriminate | discriminate]); try tauto.
  rewrite andb_true_iff, N.eqb_eq, IH.
  split; [intros [-> ->]; reflexivity | intros H; inversion H; auto].
Qed.

Lemma eqb_refl (a : jsstring) : eqb a a = true.
Proof. apply eqb_eq; reflexivity. Qed.

Lemma eqb_neq (a b : jsstring) : eqb a b = false <-> a <> b.
Proof.
  rewrite <- eqb_eq. destruct (eqb a b); split; congruence.
Qed.

Lemma length_pos_iff (s : jsstring) :
  (0 <? List.length s)%nat = true <-> s <> [].
Proof.
  destruct s; simpl; split; try congruence; intros; try discriminate; auto.
Qed.

Lemma truthy_iff (s : jsstring) : truthy s = true <-> s <> [].
Proof. destruct s; simpl; split; congruence. Qed.

(* ================================================================== *)
(** * The validator                                                    *)
(* ================================================================== *)

Lemma assert_ok (b : bool) (m : jsstring) : assert b m = Ok tt <-> b = true.
Proof. unfold assert; destruct b; split; congruence. Qed.

(** One record: the callback returns normally exactly on a well-formed
    record, and otherwise throws for the first broken invariant. *)
Lemma validateCenter_cases (bounds : option Bounds) (c : Center) :
  (validateCenter bounds c = Ok tt /\ wellFormed bounds c)
  \/ (exists msg, violation bounds c msg /\ ~ wellFormed bounds c
       /\ validateCenter bounds c = Throw (Error (lit "Test failed: " +++ msg))).
Proof.
  unfold validateCenter, wellFormed.
  case_assert Hid; [apply length_pos_iff in Hid|].
  2:{ right; eexists; split; [apply bad_id|split; [|reflexivity]].
      - destruct (id c); [reflexivity | discriminate].
      - intros (H & _). apply length_pos_iff in H. congruence. }
  case_assert Hname; [apply length_pos_iff in Hname|].
  2:{ right; eexists; split; [apply bad_name; auto|split; [|reflexivity]].
      - destruct (name c); [reflexivity | discriminate].
      - intros (_ & H & _). apply length_pos_iff in H. congruence. }
  case_assert Hlat; [apply negb_true_iff in Hlat|apply negb_false_iff in Hlat].
  2:{ right; eexists; split; [apply bad_lat; auto|split; [|reflexivity]].
      intros (_ & _ & H & _). congruence. }
  case_assert Hlng; [apply negb_true_iff in Hlng|apply negb_false_iff in Hlng].
  2:{ right; eexists; split; [apply bad_lng; auto|split; [|reflexivity]].
      intros (_ & _ & _ & H & _). congruence. }
  destruct bounds as [[[w s] [e n]]|]; simpl.
  2:{ left; auto 10. }
  case_assert Hla; [apply andb_true_iff in Hla|].
  2:{ right; eexists; split;
        [eapply lat_outside; eauto|split; [|reflexivity]].
      - rewrite <- andb_true_iff. congruence.
      - intros (_ & _ & _ & _ & (H & _)).
        rewrite <- andb_true_iff in H. congruence. }
  case_assert Hln; [apply andb_true_iff in Hln|].
  2:{ right; eexists; split;
        [eapply lng_outside; eauto|split; [|reflexivity]].
      - rewrite <- andb_true_iff. congruence.
      - intros (_ & _ & _ & _ & (_ & H)).
        rewrite <- andb_true_iff in H. congruence. }
  left; auto 10.
Qed.

Lemma validateCenter_ok_iff (bounds : option Bounds) (c : Center) :
  validateCenter bounds c = Ok tt <-> wellFormed bounds c.
Proof.
  destruct (validateCenter_cases bounds c) as [[H W]|(m & _ & NW & H)];
    rewrite H; split; intros; auto; try discriminate; contradiction.
Qed.

Lemma validateCenters_cons (bounds : option Bounds) c rest :
  validateCenters (c :: rest) bounds =
  (validateCenter bounds c ;; validateCenters rest bounds).
Proof. reflexivity. Qed.

(** The whole batch: accepted exactly when every record is well formed. *)
Lemma validateCenters_ok_iff (bounds : option Bounds) (data : list Center) :
  validateCenters data bounds = Ok tt <-> Forall (wellFormed bounds) data.
Proof.
  induction data as [|c rest IH].
  - split; [constructor | reflexivity].
  - rewrite validateCenters_cons.
    destruct (validateCenter_cases bounds c) as [[H W]|(m & _ & NW & H)];
      rewrite H; simpl.
    + rewrite IH. split; [constructor; auto | inversion 1; auto].
    + split; [discriminate | inversion 1; contradiction].
Qed.

(** A rejected batch: the error is the one of the first record, in input
    order, that is not well formed, for the first invariant it breaks. *)
Lemma validateCenters_first_violation (bounds : option Bounds) :
  forall (data : list Center) (e : exn),
  validateCenters data bounds = Throw e ->
  exists pre c post msg,
    data = pre ++ c :: post
    /\ Forall (wellFormed bounds) pre
    /\ ~ wellFormed bounds c
    /\ violation bounds c msg
    /\ e = Error (lit "Test failed: " +++ msg).
Proof.
  induction data as [|c rest IH]; intros e He.
  - discriminate.
  - rewrite validateCenters_cons in He.
    destruct (validateCenter_cases bounds c) as [[H W]|(m & V & NW & H)];
      rewrite H in He; simpl in He.
    + destruct (IH e He) as (pre & c' & post & msg & -> & Fp & NW & V & ->).
      exists (c :: pre), c', post, msg. repeat split; auto.
    + inversion He; subst e.
      exists [], c, rest, m. repeat split; auto.
Qed.

Lemma validateCenters_total (bounds : option Bounds) (data : list Center) :
  validateCenters data bounds = Ok tt
  \/ exists e, validateCenters data bounds = Throw e.
Proof.
  destruct (validateCenters data bounds) as [[]|e]; eauto.
Qed.

(* ================================================================== *)
(** * The header check                                                 *)
(* ================================================================== *)

Lemma findIndexFrom_nonneg {A} (p : A -> bool) (l : list A) :
  forall i, (0 <= i)%Z -> (0 <=? findIndexFrom p i l)%Z = existsb p l.
Proof.
  induction l as [|x l IH]; intros i Hi; simpl.
  - reflexivity.
  - destruct (p x); simpl.
    + apply Z.leb_le; assumption.
    + apply IH; lia.
Qed.

Lemma findIndex_nonneg {A} (p : A -> bool) (l : list A) :
  (0 <=? findIndex p l)%Z = existsb p l.
Proof. apply findIndexFrom_nonneg; lia. Qed.

Lemma findIndexFrom_map {A B} (f : A -> B) (p : B -> bool) (l : list A) :
  forall i, findIndexFrom p i (map f l) = findIndexFrom (fun x => p (f x)) i l.
Proof.
  induction l as [|x l IH]; intros i; simpl; [reflexivity|].
  destruct (p (f x)); [reflexivity | apply IH].
Qed.

Lemma existsb_eqb_In {A} (f : A -> jsstring) (k : jsstring) (l : list A) :
  existsb (fun h => eqb (f h) k) l = true <-> In k (map f l).
Proof.
  rewrite existsb_exists, in_map_iff.
  split; intros (x & H1 & H2).
  - exists x. apply eqb_eq in H2. auto.
  - exists x. split; [assumption | apply eqb_eq; assumption].
Qed.

Lemma all_required (P : jsstring -> Prop) :
  (forall k, In k required -> P k)
  <-> P (lit "id") /\ P (lit "name") /\ P (lit "lat") /\ P (lit "lng").
Proof.
  unfold required; split.
  - intros H; repeat split; apply H; simpl; auto.
  - intros (H1 & H2 & H3 & H4) k [<-|[<-|[<-|[<-|[]]]]]; assumption.
Qed.

Section HeaderCheck.

Variable toLowerCase : jsstring -> jsstring.

Lemma comma_idx_nonneg (row k : jsstring) :
  (0 <=? CommaParser.idx toLowerCase (map trim (splitBy isComma row)) k)%Z = true
  <-> In k (headerNames toLowerCase row).
Proof.
  unfold CommaParser.idx. rewrite findIndex_nonneg.
  rewrite (existsb_eqb_In toLowerCase), map_map. reflexivity.
Qed.

Lemma quoted_getIdx_nonneg (row k : jsstring) :
  (0 <=? QuoteParser.getIdx (headerNames toLowerCase row) k)%Z = true
  <-> In k (headerNames toLowerCase row).
Proof.
  unfold QuoteParser.getIdx. rewrite findIndex_nonneg.
  rewrite (existsb_eqb_In (fun h => h)), map_id. reflexivity.
Qed.

Lemma comma_requiredPresent (row : jsstring) :
  requiredPresent
    (CommaParser.columns toLowerCase (map trim (splitBy isComma row))) = true
  <-> forall k, In k required -> In k (headerNames toLowerCase row).
Proof.
  rewrite all_required. unfold requiredPresent; simpl.
  rewrite !andb_true_iff, !comma_idx_nonneg. tauto.
Qed.

Lemma quoted_requiredPresent (row : jsstring) :
  requiredPresent (QuoteParser.columns (headerNames toLowerCase row)) = true
  <-> forall k, In k required -> In k (headerNames toLowerCase row).
Proof.
  rewrite all_required. unfold requiredPresent; simpl.
  rewrite !andb_true_iff, !quoted_getIdx_nonneg. tauto.
Qed.

(** Either parser, on a text with a header row: the outcome is decided by
    the header check alone. *)
Lemma parse_with_header (v : variant) (text row : jsstring) :
  headerRow v text = Some row ->
  ((forall k, In k required -> In k (headerNames toLowerCase row))
     /\ exists recs, parseCSV_of v toLowerCase text = Ok recs)
  \/ (~ (forall k, In k required -> In k (headerNames toLowerCase row))
     /\ parseCSV_of v toLowerCase text = Throw headerError).
Proof.
  destruct v; simpl; intros Hrow.
  - unfold CommaParser.parseCSV.
    destruct (filter CommaParser.nonBlank (splitLines text)) as [|l0 rows];
      [discriminate|]. inversion Hrow; subst l0. cbv zeta.
    destruct (requiredPresent _) eqn:E; simpl.
    + left. split; [apply comma_requiredPresent; exact E | eauto].
    + right. split; [|reflexivity].
      rewrite <- comma_requiredPresent. congruence.
  - unfold QuoteParser.parseCSV.
    destruct (QuoteParser.rowsOf text) as [|r0 rows]; [discriminate|].
    inversion Hrow; subst r0. cbv zeta.
    fold (headerNames toLowerCase row).
    destruct (requiredPresent _) eqn:E; simpl.
    + left. split; [apply quoted_requiredPresent; exact E | eauto].
    + right. split; [|reflexivity].
      rewrite <- quoted_requiredPresent. congruence.
Qed.

Lemma in_required_dec (row k : jsstring) :
  In k (headerNames toLowerCase row) \/ ~ In k (headerNames toLowerCase row).
Proof.
  destruct (in_dec (list_eq_dec N.eq_dec) k (headerNames toLowerCase row));
    auto.
Qed.

End HeaderCheck.

(* ================================================================== *)
(** * Derivations                                                      *)
(* ================================================================== *)



Lemma hasTag_carries (c : Center) (t : jsstring) :
  hasTag c t = true <-> carries t c.
Proof.
  unfold hasTag, carries. rewrite existsb_exists.
  split; intros (x & H1 & H2); exists x; split; auto; apply eqb_eq; auto.
Qed.

Lemma hasTag_literal (c : Center) (t : jsstring) :
  trim t = t -> In t (tagsOf c) -> hasTag c t = true.
Proof.
  intros Ht Hin. apply hasTag_carries. exists t; auto.
Qed.

Lemma arrIncludes_In (l : list jsstring) (x : jsstring) :
  arrIncludes l x = true <-> In x l.
Proof.
  unfold arrIncludes. rewrite existsb_exists. split.
  - intros (y & H1 & H2). apply eqb_eq in H2. subst; assumption.
  - intros H. exists x. split; [assumption | apply eqb_refl].
Qed.

Lemma matchesTags_spec (active : list jsstring) (c : Center) :
  matchesTags active c = true
  <-> exists t, In t (tagsOf c) /\ In t active.
Proof.
  unfold matchesTags. rewrite existsb_exists.
  split; intros (t & H1 & H2); exists t; split; auto;
    apply arrIncludes_In; assumption.
Qed.



Lemma filtered_stages (toLowerCase : jsstring -> jsstring)
      (cs : list Center) (query : jsstring) (active : list jsstring) :
  filtered toLowerCase cs query active
  = tagStage active (textStage toLowerCase (toLowerCase (trim query)) cs).
Proof. reflexivity. Qed.

Lemma tagStage_nil (arr : list Center) : tagStage [] arr = arr.
Proof. reflexivity. Qed.

Lemma tagStage_active (active : list jsstring) (arr : list Center) :
  active <> [] -> tagStage active arr = filter (matchesTags active) arr.
Proof.
  intros H. unfold tagStage. destruct active; [congruence | reflexivity].
Qed.

(* ================================================================== *)
(** * Admin handlers                                                   *)
(* ================================================================== *)

Lemma surfaced_nonempty (e : exn) : surfaced e <> [].
Proof.
  unfold surfaced. destruct (truthy (message e)) eqn:E.
  - apply truthy_iff; assumption.
  - unfold errorToString. rewrite E. destruct e; discriminate.
Qed.

Lemma parseAndValidate_ok (parseCSV : jsstring -> result (list Center))
      (text : jsstring) (parsed : list Center) :
  parseAndValidate parseCSV text = Ok parsed
  <-> parseCSV text = Ok parsed
      /\ validateCenters parsed (Some TARGET_BOUNDS) = Ok tt.
Proof.
  unfold parseAndValidate.
  destruct (parseCSV text) as [p|e]; simpl.
  - destruct (validateCenters p (Some TARGET_BOUNDS)) as [[]|e] eqn:V; simpl.
    + split; [intros H; inversion H; subst; auto | intros [H _]; exact H].
    + split; [discriminate|].
      intros [H1 H2]. inversion H1; subst. congruence.
  - split; [discriminate | intros [H _]; discriminate].
Qed.

Lemma parseAndValidate_throw (parseCSV : jsstring -> result (list Center))
      (text : jsstring) (e : exn) :
  parseAndValidate parseCSV text = Throw e
  <-> parseCSV text = Throw e
      \/ exists parsed, parseCSV text = Ok parsed
           /\ validateCenters parsed (Some TARGET_BOUNDS) = Throw e.
Proof.
  unfold parseAndValidate.
  destruct (parseCSV text) as [p|e']; simpl.
  - destruct (validateCenters p (Some TARGET_BOUNDS)) as [[]|e'] eqn:V; simpl.
    + split; [discriminate|].
      intros [H|(q & H1 & H2)]; [discriminate|].
      inversion H1; subst. congruence.
    + split.
      * intros H; inversion H; subst. right; eauto.
      * intros [H|(q & H1 & H2)]; [discriminate|].
        inversion H1; subst. congruence.
  - split; [intros H; inversion H; auto|].
    intros [H|(q & H1 & _)]; [exact H | discriminate].
Qed.

(* ================================================================== *)
(** * Trimming and splitting                                           *)
(* ================================================================== *)

Lemma dropWhile_idem (p : codeunit -> bool) (s : jsstring) :
  dropWhile p (dropWhile p s) = dropWhile p s.
Proof.
  induction s as [|c s IH]; simpl; [reflexivity|].
  destruct (p c) eqn:E; [exact IH | simpl; rewrite E; reflexivity].
Qed.

Lemma dropWhile_snoc (p : codeunit -> bool) (s : jsstring) (c : codeunit) :
  p c = false -> dropWhile p (s ++ [c]) = dropWhile p s ++ [c].
Proof.
  intros Hc. induction s as [|x s IH]; simpl.
  - rewrite Hc; reflexivity.
  - destruct (p x); [exact IH | reflexivity].
Qed.

Lemma dropWhile_head (p : codeunit -> bool) (s : jsstring) c t :
  dropWhile p s = c :: t -> p c = false.
Proof.
  induction s as [|x s IH]; simpl; [discriminate|].
  destruct (p x) eqn:E; [exact IH | intros H; inversion H; subst; exact E].
Qed.

Lemma dropWhile_nil_all (p : codeunit -> bool) (s : jsstring) :
  dropWhile p s = [] <-> forall c, In c s -> p c = true.
Proof.
  induction s as [|x s IH]; simpl.
  - split; [intros _ c [] | reflexivity].
  - destruct (p x) eqn:E.
    + rewrite IH. split.
      * intros H c [<-|Hc]; auto.
      * intros H c Hc; apply H; auto.
    + split; [discriminate|]. intros H. rewrite (H x) in E by auto.
      discriminate.
Qed.

Lemma trim_nil : trim [] = [].
Proof. reflexivity. Qed.

Lemma trimEnd_cons (c : codeunit) (s : jsstring) :
  isWhiteSpace c = false -> trimEnd (c :: s) = c :: trimEnd s.
Proof.
  intros Hc. unfold trimEnd. simpl.
  rewrite dropWhile_snoc by assumption.
  rewrite rev_app_distr. reflexivity.
Qed.

Lemma trimEnd_idem (s : jsstring) : trimEnd (trimEnd s) = trimEnd s.
Proof.
  unfold trimEnd. rewrite rev_involutive, dropWhile_idem. reflexivity.
Qed.

Lemma trim_idem (s : jsstring) : trim (trim s) = trim s.
Proof.
  unfold trim, trimStart.
  destruct (dropWhile isWhiteSpace s) as [|c t] eqn:E; [reflexivity|].
  pose proof (dropWhile_head _ _ _ _ E) as Hc.
  rewrite trimEnd_cons by assumption. simpl. rewrite Hc.
  rewrite trimEnd_cons by assumption. rewrite trimEnd_idem. reflexivity.
Qed.

(** A string trims to the empty string exactly when it is all white space. *)
Lemma trim_nil_iff (s : jsstring) :
  trim s = [] <-> forall c, In c s -> isWhiteSpace c = true.
Proof.
  unfold trim, trimStart, trimEnd. split.
  - intros H. apply dropWhile_nil_all.
    destruct (dropWhile isWhiteSpace s) as [|c t] eqn:E; [reflexivity|].
    exfalso. pose proof (dropWhile_head _ _ _ _ E) as Hc.
    simpl in H. rewrite dropWhile_snoc in H by assumption.
    rewrite rev_app_distr in H. discriminate.
  - intros H. apply dropWhile_nil_all in H. rewrite H. reflexivity.
Qed.

Lemma splitBy_cons (sep : codeunit -> bool) (c : codeunit) (s : jsstring) :
  splitBy sep (c :: s) =
  if sep c then [] :: splitBy sep s
  else (c :: hd [] (splitBy sep s)) :: tl (splitBy sep s).
Proof.
  simpl. destruct (sep c); [reflexivity|].
  destruct (splitBy sep s); reflexivity.
Qed.

Lemma splitBy_nonempty (sep : codeunit -> bool) (s : jsstring) :
  splitBy sep s <> [].
Proof.
  destruct s as [|c s]; [discriminate|].
  rewrite splitBy_cons. destruct (sep c); discriminate.
Qed.

Lemma splitBy_hd_tl (sep : codeunit -> bool) (s : jsstring) :
  splitBy sep s = hd [] (splitBy sep s) :: tl (splitBy sep s).
Proof.
  pose proof (splitBy_nonempty sep s).
  destruct (splitBy sep s); [congruence | reflexivity].
Qed.

(** A code unit of a piece is a code unit of the text that was split. *)
Lemma splitBy_In (sep : codeunit -> bool) (s : jsstring) :
  forall p c, In p (splitBy sep s) -> In c p -> In c s.
Proof.
  induction s as [|x s IH]; intros p c.
  - simpl. intros [<-|[]] [].
  - rewrite splitBy_cons. destruct (sep x).
    + intros [<-|Hp] Hc; [destruct Hc|]. right. eapply IH; eauto.
    + intros [<-|Hp] Hc.
      * destruct Hc as [<-|Hc]; [left; reflexivity|].
        right. apply (IH (hd [] (splitBy sep s))); [|assumption].
        rewrite (splitBy_hd_tl sep s) at 2. left; reflexivity.
      * right. apply (IH p); [|assumption].
        rewrite (splitBy_hd_tl sep s). right; assumption.
Qed.

(** A split into one piece did not split: the piece is the whole text. *)
Lemma splitBy_single (sep : codeunit -> bool) (s : jsstring) :
  List.length (splitBy sep s) = 1%nat -> splitBy sep s = [s].
Proof.
  induction s as [|x s IH]; [reflexivity|].
  rewrite splitBy_cons. destruct (sep x); simpl.
  - pose proof (splitBy_nonempty sep s) as Hne. intros H.
    destruct (splitBy sep s); [congruence | discriminate].
  - intros H. rewrite (splitBy_hd_tl sep s) in IH.
    destruct (tl (splitBy sep s)); [|discriminate].
    specialize (IH eq_refl). inversion IH as [E]. rewrite E. rewrite E.
    reflexivity.
Qed.

(* ================================================================== *)
(** * The row loop of the comma-splitting parser                       *)
(* ================================================================== *)

Lemma nonBlank_iff (l : jsstring) :
  CommaParser.nonBlank l = true <-> trim l <> [].
Proof. apply length_pos_iff. Qed.

(** A non-blank row is never skipped by the loop. *)
Lemma comma_row_kept (row : jsstring) :
  CommaParser.nonBlank row = true ->
  (List.length (splitBy isComma row) =? 1)%nat
  && eqb (trim (nth 0 (splitBy isComma row) [])) [] = false.
Proof.
  intros Hnb. apply nonBlank_iff in Hnb.
  destruct (List.length (splitBy isComma row) =? 1)%nat eqn:E;
    [|reflexivity].
  apply Nat.eqb_eq, splitBy_single in E. rewrite E. simpl.
  apply eqb_neq. assumption.
Qed.

Lemma comma_rowsLoop_nonBlank (cols : Columns) (rows : list jsstring) :
  forall out,
  Forall (fun r => CommaParser.nonBlank r = true) rows ->
  CommaParser.rowsLoop cols rows out
  = out ++ map (fun r => CommaParser.record cols (splitBy isComma r)) rows.
Proof.
  induction rows as [|r rows IH]; intros out Hnb; simpl.
  - rewrite app_nil_r; reflexivity.
  - inversion Hnb as [|? ? Hr Hrest]; subst.
    rewrite (comma_row_kept _ Hr), (IH _ Hrest), <- app_assoc. reflexivity.
Qed.

Lemma filter_Forall {A} (p : A -> bool) (l : list A) :
  Forall (fun x => p x = true) (filter p l).
Proof.
  apply Forall_forall. intros x Hx. apply filter_In in Hx. tauto.
Qed.

Lemma tl_Forall {A} (P : A -> Prop) (l : list A) :
  Forall P l -> Forall P (tl l).
Proof. destruct 1; simpl; auto. Qed.

(** The parse of a text with a header row that passes the check: one
    record per data row. *)
Lemma comma_parse_records (toLowerCase : jsstring -> jsstring)
      (text hrow : jsstring) (recs : list Center) :
  headerRow Comma text = Some hrow ->
  CommaParser.parseCSV toLowerCase text = Ok recs ->
  recs = map (fun r => CommaParser.record
                         (CommaParser.columns toLowerCase
                            (map trim (splitBy isComma hrow)))
                         (splitBy isComma r))
             (dataRows Comma text).
Proof.
  unfold headerRow, dataRows, CommaParser.parseCSV.
  pose proof (filter_Forall CommaParser.nonBlank (splitLines text)) as F.
  destruct (filter CommaParser.nonBlank (splitLines text)) as [|l0 rows];
    [discriminate|].
  intros H; inversion H; subst l0. cbv zeta.
  destruct (requiredPresent _); simpl; [|discriminate].
  intros H2; inversion H2.
  apply tl_Forall in F. simpl in F.
  rewrite (comma_rowsLoop_nonBlank _ _ _ F). reflexivity.
Qed.

Lemma Number_not_numeric (s : jsstring) :
  trim s <> [] -> strNumericLiteral (trim s) = None -> Number s = NaN.
Proof.
  unfold Number. intros H1 H2.
  destruct (trim s) as [|c t]; [congruence|]. rewrite H2. reflexivity.
Qed.

(* ================================================================== *)
(** * The two parsers on plain text                                    *)
(* ================================================================== *)

Lemma splitLines_noCRLF (text : jsstring) :
  hasCRLF text = false -> splitLines text = splitBy isLF text.
Proof.
  induction text as [|c rest IH]; [reflexivity|].
  cbn [hasCRLF]. intros H. apply orb_false_iff in H as [H1 H2].
  cbn [splitLines splitBy]. unfold isLF at 1. rewrite H1, (IH H2).
  reflexivity.
Qed.

Lemma prefixFirst_nil (pieces : list jsstring) :
  pieces <> [] -> prefixFirst [] pieces = pieces.
Proof. destruct pieces; [congruence | reflexivity]. Qed.

Lemma removelast_cons {A} (x : A) (l : list A) :
  l <> [] -> removelast (x :: l) = x :: removelast l.
Proof. destruct l; [congruence | reflexivity]. Qed.

Lemma last_cons {A} (x : A) (l : list A) (d : A) :
  l <> [] -> last (x :: l) d = last l d.
Proof. destruct l; [congruence | reflexivity]. Qed.

Lemma not_quote (c : codeunit) (s : jsstring) :
  ~ In QUOTE (c :: s) -> (c =? QUOTE) = false /\ ~ In QUOTE s.
Proof.
  intros H. split.
  - apply N.eqb_neq. intros ->. apply H. left; reflexivity.
  - intros Hs. apply H. right; assumption.
Qed.

(** The record scan of the quote-aware parser, on text without a quote,
    splits at the line feeds. *)
Lemma scanRows_plain (text : jsstring) :
  forall cur rows,
  ~ In QUOTE text ->
  QuoteParser.scanRows text cur false rows
  = (rows ++ removelast (prefixFirst cur (splitBy isLF text)),
     last (prefixFirst cur (splitBy isLF text)) []).
Proof.
  induction text as [|ch rest IH]; intros cur rows Hq.
  - simpl. unfold prefixFirst. simpl. rewrite !app_nil_r. reflexivity.
  - apply not_quote in Hq as [Hch Hrest].
    cbn [QuoteParser.scanRows]. rewrite Hch.
    rewrite splitBy_cons. change (isLF ch) with (ch =? LF).
    pose proof (splitBy_nonempty isLF rest) as Hne.
    destruct (ch =? LF) eqn:E; cbn [andb negb].
    + rewrite (IH _ _ Hrest), (prefixFirst_nil _ Hne).
      unfold prefixFirst. cbn [hd tl].
      rewrite removelast_cons, last_cons by assumption.
      rewrite app_nil_r, <- app_assoc. reflexivity.
    + rewrite (IH _ _ Hrest). unfold prefixFirst. cbn [hd tl].
      rewrite <- app_assoc. reflexivity.
Qed.

Lemma rowsOf_plain (text : jsstring) :
  ~ In QUOTE text ->
  QuoteParser.rowsOf text
  = removelast (splitBy isLF text) ++ keptLast (last (splitBy isLF text) []).
Proof.
  intros Hq. unfold QuoteParser.rowsOf.
  rewrite (scanRows_plain _ _ _ Hq).
  rewrite prefixFirst_nil by apply splitBy_nonempty.
  unfold keptLast, CommaParser.nonBlank. simpl.
  destruct (0 <? _)%nat; [reflexivity | rewrite app_nil_r; reflexivity].
Qed.

Lemma keptLast_one (x : jsstring) :
  filter CommaParser.nonBlank (keptLast x) = filter CommaParser.nonBlank [x].
Proof.
  unfold keptLast. cbn [filter].
  destruct (CommaParser.nonBlank x) eqn:N; cbn [filter]; rewrite ?N;
    reflexivity.
Qed.

Lemma keptLast_filter (ps : list jsstring) :
  filter CommaParser.nonBlank (removelast ps ++ keptLast (last ps []))
  = filter CommaParser.nonBlank ps.
Proof.
  destruct ps as [|p ps'] eqn:E; [reflexivity|]. rewrite <- E.
  assert (Hne : ps <> []) by (rewrite E; discriminate).
  rewrite (app_removelast_last [] Hne) at 3.
  rewrite !filter_app. f_equal. apply keptLast_one.
Qed.

(** With a first line that is not blank, the rows of the quote-aware parser
    are that line and then rows that differ from the non-blank lines only
    by blank ones. *)
Lemma rowsOf_plain_first (text : jsstring) :
  ~ In QUOTE text -> trim (firstLine text) <> [] ->
  exists rest,
    QuoteParser.rowsOf text = firstLine text :: rest
    /\ filter CommaParser.nonBlank (splitBy isLF text)
       = firstLine text :: filter CommaParser.nonBlank rest
    /\ forall r, In r rest -> In r (splitBy isLF text).
Proof.
  intros Hq Hfl. rewrite (rowsOf_plain _ Hq). unfold firstLine in *.
  rewrite (splitBy_hd_tl isLF text).
  set (p0 := hd [] (splitBy isLF text)) in *.
  set (ps := tl (splitBy isLF text)).
  apply nonBlank_iff in Hfl.
  destruct ps as [|p ps'] eqn:E.
  - exists []. split; [|split].
    + simpl. unfold keptLast. rewrite Hfl. reflexivity.
    + cbn [filter]. rewrite Hfl. reflexivity.
    + intros r [].
  - rewrite <- E. assert (Hne : ps <> []) by (rewrite E; discriminate).
    exists (removelast ps ++ keptLast (last ps [])).
    rewrite removelast_cons, last_cons by assumption.
    split; [reflexivity|]. split.
    + cbn [filter]. rewrite Hfl, keptLast_filter. reflexivity.
    + intros r Hr. right. apply in_app_or in Hr as [Hr|Hr].
      * rewrite (app_removelast_last [] Hne). apply in_or_app; left; exact Hr.
      * unfold keptLast in Hr.
        destruct (CommaParser.nonBlank (last ps [])); [|destruct Hr].
        destruct Hr as [<-|[]].
        rewrite (app_removelast_last [] Hne) at 2.
        apply in_or_app; right; left; reflexivity.
Qed.

(** The row split of the quote-aware parser, on a row without a quote,
    splits at the commas and trims. *)
Lemma splitRowFrom_plain (r : jsstring) :
  forall cell out,
  ~ In QUOTE r ->
  QuoteParser.splitRowFrom r cell false out
  = out ++ map trim (prefixFirst cell (splitBy isComma r)).
Proof.
  induction r as [|ch rest IH]; intros cell out Hq.
  - simpl. unfold prefixFirst. simpl. rewrite app_nil_r. reflexivity.
  - apply not_quote in Hq as [Hch Hrest].
    cbn [QuoteParser.splitRowFrom]. rewrite Hch.
    rewrite splitBy_cons. change (isComma ch) with (ch =? COMMA).
    pose proof (splitBy_nonempty isComma rest) as Hne.
    destruct (ch =? COMMA) eqn:E; cbn [andb negb].
    + rewrite (IH _ _ Hrest), (prefixFirst_nil _ Hne).
      unfold prefixFirst. cbn [hd tl map].
      rewrite app_nil_r, <- app_assoc. reflexivity.
    + rewrite (IH _ _ Hrest). unfold prefixFirst. cbn [hd tl map].
      rewrite <- app_assoc. reflexivity.
Qed.

Lemma splitRow_plain (r : jsstring) :
  ~ In QUOTE r -> QuoteParser.splitRow r = map trim (splitBy isComma r).
Proof.
  intros Hq. unfold QuoteParser.splitRow.
  rewrite (splitRowFrom_plain _ _ _ Hq).
  rewrite prefixFirst_nil by apply splitBy_nonempty. reflexivity.
Qed.

Lemma val_trimmed (cells : list jsstring) (i : Z) :
  QuoteParser.val (map trim cells) i = CommaParser.get cells i.
Proof.
  unfold QuoteParser.val, CommaParser.get, at_.
  destruct (0 <=? i)%Z; [|reflexivity].
  rewrite nth_error_map.
  destruct (nth_error cells (Z.to_nat i)); simpl;
    [apply trim_idem | reflexivity].
Qed.

Lemma parseTags_same (v : jsstring) :
  QuoteParser.parseTags v = CommaParser.parseTags v.
Proof. destruct v; reflexivity. Qed.

Lemma record_plain (cols : Columns) (r : jsstring) :
  ~ In QUOTE r ->
  QuoteParser.record cols (QuoteParser.splitRow r)
  = CommaParser.record cols (splitBy isComma r).
Proof.
  intros Hq. unfold QuoteParser.record, CommaParser.record.
  rewrite (splitRow_plain _ Hq), !val_trimmed, parseTags_same.
  reflexivity.
Qed.

Lemma quoted_rowsLoop_filter (cols : Columns) (rows : list jsstring) :
  forall out,
  QuoteParser.rowsLoop cols rows out
  = out ++ map (fun r => QuoteParser.record cols (QuoteParser.splitRow r))
               (filter CommaParser.nonBlank rows).
Proof.
  induction rows as [|r rows IH]; intros out; simpl.
  - rewrite app_nil_r; reflexivity.
  - unfold CommaParser.nonBlank at 1.
    destruct (trim r); simpl; rewrite IH; [reflexivity|].
    rewrite <- app_assoc. reflexivity.
Qed.

Lemma columns_same (toLowerCase : jsstring -> jsstring) (row : jsstring) :
  QuoteParser.columns (headerNames toLowerCase row)
  = CommaParser.columns toLowerCase (map trim (splitBy isComma row)).
Proof.
  unfold QuoteParser.columns, CommaParser.columns, QuoteParser.getIdx,
    CommaParser.idx, findIndex, headerNames.
  rewrite !findIndexFrom_map. reflexivity.
Qed.

Lemma get_trimmed (cells : list jsstring) (i : Z) :
  trim (CommaParser.get cells i) = CommaParser.get cells i.
Proof.
  unfold CommaParser.get. destruct (0 <=? i)%Z; [|reflexivity].
  destruct (at_ cells i); [apply trim_idem | reflexivity].
Qed.

Lemma noQuote_sound (text : jsstring) :
  noQuote text = true -> ~ In QUOTE text.
Proof.
  unfold noQuote. rewrite forallb_forall. intros H Hin.
  specialize (H _ Hin). rewrite N.eqb_refl in H. discriminate.
Qed.

Lemma comma_only_header_failure (toLowerCase : jsstring -> jsstring)
      (text : jsstring) (e : exn) :
  CommaParser.parseCSV toLowerCase text = Throw e -> e = headerError.
Proof.
  unfold CommaParser.parseCSV.
  destruct (filter CommaParser.nonBlank (splitLines text)); [discriminate|].
  cbv zeta. destruct (requiredPresent _); simpl; [discriminate|].
  intros H; inversion H; reflexivity.
Qed.

(* ================================================================== *)
(** * The claims of the specification                                  *)
(* ================================================================== *)

(** C1. The validator, run on what either parser returns, succeeds exactly
    when every parsed record has a non-empty id, a non-empty name, lat and
    lng that are not NaN and, under a bound, lat within [south, north] and
    lng within [west, east]; otherwise the whole batch is rejected, with the
    error of the first record in input order that breaks an invariant. *)
Theorem validator_accepts_iff_all_records_wellformed
        (toLowerCase : jsstring -> jsstring) (v : variant)
        (text : jsstring) (recs : list Center) (bounds : option Bounds) :
  parseCSV_of v toLowerCase text = Ok recs ->
  (validateCenters recs bounds = Ok tt <-> Forall (wellFormed bounds) recs)
  /\ (validateCenters recs bounds = Ok tt
      \/ exists pre c post msg,
           recs = pre ++ c :: post
           /\ Forall (wellFormed bounds) pre
           /\ ~ wellFormed bounds c
           /\ violation bounds c msg
           /\ validateCenters recs bounds
              = Throw (Error (lit "Test failed: " +++ msg))).
Proof.
  intros _. split; [apply validateCenters_ok_iff|].
  destruct (validateCenters_total bounds recs) as [H|(e & H)]; [auto|].
  right.
  destruct (validateCenters_first_violation bounds recs e H)
    as (pre & c & post & msg & E & Fp & NW & V & ->).
  exists pre, c, post, msg. auto.
Qed.

Lemma validator_accepts_iff_all_records_wellformed_witness :
  exists recs,
    parseCSV_of Comma asciiLower outOfBoundsText = Ok recs
    /\ (validateCenters recs (Some TARGET_BOUNDS) = Ok tt
        <-> Forall (wellFormed (Some TARGET_BOUNDS)) recs).
Proof.
  eexists. split; [vm_compute; reflexivity|].
  apply (validator_accepts_iff_all_records_wellformed
           asciiLower Comma outOfBoundsText).
  vm_compute; reflexivity.
Defined.

(** C2, as stated, fails: a record whose only tag is the written tag with a
    leading space carries neither literal tag, and is classified written,
    not residual. *)
Lemma literal_tag_classification_counterexample :
  ~ classifiedByLiteralTags (sampleCenter (lit "A") [lit " 필기"]).
Proof.
  intros (_ & _ & H).
  assert (H1 : ~ In PRACTICAL (tagsOf (sampleCenter (lit "A") [lit " 필기"]))).
  { intros [E|[]]. vm_compute in E. discriminate. }
  assert (H2 : ~ In WRITTEN (tagsOf (sampleCenter (lit "A") [lit " 필기"]))).
  { intros [E|[]]. vm_compute in E. discriminate. }
  specialize (H H1 H2). vm_compute in H. discriminate.
Qed.

(** C2, amended. For every filtered record, the examType of its feature is
    the practical value whenever some tag of the record, trimmed, is the
    practical tag; otherwise the written value whenever some tag, trimmed,
    is the written tag; otherwise the residual value.  A record carrying
    both literal tags is practical. *)
Theorem examType_priority_on_trimmed_tags
        (filtered : list Center) (c : Center) :
  In c filtered ->
  In (feature c) (geojson filtered)
  /\ (carries PRACTICAL c ->
      Feature.examType (Feature.props (feature c)) = PRACTICAL)
  /\ (~ carries PRACTICAL c -> carries WRITTEN c ->
      Feature.examType (Feature.props (feature c)) = WRITTEN)
  /\ (~ carries PRACTICAL c -> ~ carries WRITTEN c ->
      Feature.examType (Feature.props (feature c)) = OTHER)
  /\ (In PRACTICAL (tagsOf c) -> In WRITTEN (tagsOf c) ->
      Feature.examType (Feature.props (feature c)) = PRACTICAL).
Proof.
  intros Hin. split; [apply in_map; assumption|].
  cbn [feature Feature.props Feature.examType]. unfold examType.
  rewrite <- !hasTag_carries.
  repeat split.
  - intros ->. reflexivity.
  - intros H1 H2. apply not_true_is_false in H1. rewrite H1, H2. reflexivity.
  - intros H1 H2. apply not_true_is_false in H1, H2. rewrite H1, H2.
    reflexivity.
  - intros H1 _. rewrite (hasTag_literal c PRACTICAL eq_refl H1).
    reflexivity.
Qed.

Lemma examType_priority_on_trimmed_tags_witness :
  Feature.examType
    (Feature.props (feature (sampleCenter (lit "A") [WRITTEN; PRACTICAL])))
  = PRACTICAL.
Proof.
  refine (proj2 (proj2 (proj2 (proj2
    (examType_priority_on_trimmed_tags
       [sampleCenter (lit "A") [WRITTEN; PRACTICAL]]
       (sampleCenter (lit "A") [WRITTEN; PRACTICAL]) _)))) _ _);
    simpl; auto.
Defined.

(** C3. Whenever one or more tags are active, the filtered list is the list
    of the records passing the free-text filter whose tag list shares an
    element with the active tags: one shared tag is enough. *)
Theorem tag_filter_keeps_records_sharing_a_tag
        (toLowerCase : jsstring -> jsstring) (centers : list Center)
        (query : jsstring) (active : list jsstring) :
  active <> [] ->
  filtered toLowerCase centers query active
  = filter (matchesTags active) (filtered toLowerCase centers query [])
  /\ forall c,
       In c (filtered toLowerCase centers query active)
       <-> In c (filtered toLowerCase centers query [])
           /\ exists t, In t (tagsOf c) /\ In t active.
Proof.
  intros Hact.
  assert (E : filtered toLowerCase centers query active
              = filter (matchesTags active)
                       (filtered toLowerCase centers query [])).
  { rewrite !filtered_stages, tagStage_nil.
    apply tagStage_active; assumption. }
  split; [exact E|].
  intros c. rewrite E, filter_In, matchesTags_spec. reflexivity.
Qed.

Lemma tag_filter_keeps_records_sharing_a_tag_witness :
  In (sampleCenter (lit "A") [WRITTEN])
     (filtered asciiLower [sampleCenter (lit "A") [WRITTEN]] []
               [PRACTICAL; WRITTEN]).
Proof.
  apply (tag_filter_keeps_records_sharing_a_tag asciiLower
           [sampleCenter (lit "A") [WRITTEN]] [] [PRACTICAL; WRITTEN]).
  - discriminate.
  - split; [left; reflexivity|].
    exists WRITTEN. split; [left; reflexivity | right; left; reflexivity].
Defined.




(** C5. For every input text whose header row, its column names compared
    without regard to case, lacks one of id, name, lat, lng, either parser
    throws the header error and returns no record list; when the four are
    present the parse returns a record list. *)
Theorem missing_required_column_fails_wholesale
        (toLowerCase : jsstring -> jsstring) (v : variant)
        (text row : jsstring) :
  headerRow v text = Some row ->
  ((exists k, In k required /\ ~ In k (headerNames toLowerCase row)) ->
   parseCSV_of v toLowerCase text = Throw headerError)
  /\ ((forall k, In k required -> In k (headerNames toLowerCase row)) ->
      exists recs, parseCSV_of v toLowerCase text = Ok recs).
Proof.
  intros Hrow.
  destruct (parse_with_header toLowerCase v text row Hrow)
    as [[Hall Hok]|[Hmiss Hthrow]]; split.
  - intros (k & Hk & Hn). exfalso. apply Hn, Hall, Hk.
  - intros _. exact Hok.
  - intros _. exact Hthrow.
  - intros Hall. contradiction.
Qed.

Lemma missing_required_column_fails_wholesale_witness :
  headerRow Comma noLngText = Some (lit "id,name,lat")
  /\ parseCSV_of Comma asciiLower noLngText = Throw headerError.
Proof.
  assert (H : headerRow Comma noLngText = Some (lit "id,name,lat"))
    by (vm_compute; reflexivity).
  split; [exact H|].
  apply (proj1 (missing_required_column_fails_wholesale
                  asciiLower Comma noLngText (lit "id,name,lat") H)).
  exists (lit "lng"). split.
  - simpl; auto.
  - vm_compute. intros [E|[E|[E|[]]]]; discriminate.
Defined.

(** C6. For every paste or upload whose text fails parsing, or parses and
    fails validation against the jurisdiction bound, the record batch after
    the handler is the batch before it and the message of the error is
    shown, a message that is not empty; a text that parses and validates
    replaces the batch and leaves no error; and the batch changes only in
    that case. *)
Theorem failed_admin_load_keeps_batch
        (parseCSV : jsstring -> result (list Center))
        (text : jsstring) (st : AppState) :
  (forall e,
      parseCSV text = Throw e
      \/ (exists parsed, parseCSV text = Ok parsed
            /\ validateCenters parsed (Some TARGET_BOUNDS) = Throw e) ->
      centers (onPasteCSV parseCSV text st) = centers st
      /\ csvError (onPasteCSV parseCSV text st) = Some (surfaced e)
      /\ centers (onUploadCSV parseCSV (Ok text) st) = centers st
      /\ csvError (onUploadCSV parseCSV (Ok text) st) = Some (surfaced e)
      /\ surfaced e <> [])
  /\ (forall parsed,
        parseCSV text = Ok parsed ->
        validateCenters parsed (Some TARGET_BOUNDS) = Ok tt ->
        centers (onPasteCSV parseCSV text st) = parsed
        /\ csvError (onPasteCSV parseCSV text st) = None
        /\ centers (onUploadCSV parseCSV (Ok text) st) = parsed
        /\ csvError (onUploadCSV parseCSV (Ok text) st) = None)
  /\ (centers (onPasteCSV parseCSV text st) <> centers st ->
      exists parsed,
        parseCSV text = Ok parsed
        /\ validateCenters parsed (Some TARGET_BOUNDS) = Ok tt
        /\ centers (onPasteCSV parseCSV text st) = parsed)
  /\ (forall e,
        centers (onUploadCSV parseCSV (Throw e) st) = centers st
        /\ csvError (onUploadCSV parseCSV (Throw e) st) = Some (surfaced e)).
Proof.
  unfold onPasteCSV, onUploadCSV. cbn [bind].
  split; [|split; [|split]].
  - intros e He. apply parseAndValidate_throw in He. rewrite He. cbn.
    repeat split; try reflexivity. apply surfaced_nonempty.
  - intros parsed H1 H2.
    rewrite (proj2 (parseAndValidate_ok parseCSV text parsed) (conj H1 H2)).
    cbn. repeat split; reflexivity.
  - destruct (parseAndValidate parseCSV text) as [parsed|e] eqn:E.
    + intros _. exists parsed. apply parseAndValidate_ok in E as [E1 E2].
      auto.
    + intros H. exfalso. apply H. reflexivity.
  - intros e. split; reflexivity.
Qed.

Lemma failed_admin_load_keeps_batch_witness :
  centers (onPasteCSV (CommaParser.parseCSV asciiLower) outOfBoundsText
             (setCenters [sampleCenter (lit "A") []] emptyState))
  = [sampleCenter (lit "A") []].
Proof.
  eapply (proj1 (failed_admin_load_keeps_batch
                   (CommaParser.parseCSV asciiLower) outOfBoundsText
                   (setCenters [sampleCenter (lit "A") []] emptyState))).
  right. eexists. split.
  - vm_compute; reflexivity.
  - vm_compute; reflexivity.
Defined.

(** C7, as stated, fails: a row whose latitude cell is empty is parsed to
    latitude 0, and without a bound the validator accepts the batch. *)
Lemma empty_coordinate_cell_counterexample :
  ~ invalidCellRejected asciiLower emptyLatText None.
Proof.
  intros H.
  edestruct (H (lit "id,name,lat,lng") (lit "c1,Test Center,,127.05"))
    as [e He].
  - vm_compute; reflexivity.
  - vm_compute. left; reflexivity.
  - vm_compute; reflexivity.
  - left. intros [v Hv]. vm_compute in Hv. discriminate.
  - vm_compute in He. discriminate.
Qed.

(** C7, amended. For every data row whose lat or lng cell, trimmed, is not
    empty and is not a valid number, the comma-splitting parser coerces the
    cell to NaN in the record of that row, and the validator rejects the
    batch, whether a bound is supplied or not. *)
Theorem non_numeric_coordinate_cell_rejected
        (toLowerCase : jsstring -> jsstring) (text hrow row : jsstring)
        (recs : list Center) (bounds : option Bounds) :
  headerRow Comma text = Some hrow ->
  In row (dataRows Comma text) ->
  CommaParser.parseCSV toLowerCase text = Ok recs ->
  (latCell toLowerCase hrow row <> []
   /\ ~ numericText (latCell toLowerCase hrow row))
  \/ (lngCell toLowerCase hrow row <> []
      /\ ~ numericText (lngCell toLowerCase hrow row)) ->
  (exists c, In c recs
     /\ lat c = Number (latCell toLowerCase hrow row)
     /\ lng c = Number (lngCell toLowerCase hrow row)
     /\ (isNaN (lat c) = true \/ isNaN (lng c) = true))
  /\ exists e, validateCenters recs bounds = Throw e.
Proof.
  intros Hh Hrow Hp Hbad.
  pose proof (comma_parse_records toLowerCase text hrow recs Hh Hp) as ->.
  set (c := CommaParser.record (columnsOf toLowerCase hrow)
                               (splitBy isComma row)).
  assert (Hc : In c (map (fun r => CommaParser.record
                                     (columnsOf toLowerCase hrow)
                                     (splitBy isComma r))
                         (dataRows Comma text))).
  { apply (in_map (fun r => CommaParser.record (columnsOf toLowerCase hrow)
                                               (splitBy isComma r))).
    exact Hrow. }
  assert (Hnan : isNaN (lat c) = true \/ isNaN (lng c) = true).
  { destruct Hbad as [[Hne Hnn]|[Hne Hnn]]; [left|right];
      cbn [c CommaParser.record lat lng];
      (rewrite Number_not_numeric; [reflexivity| |]);
      unfold latCell, lngCell in *; rewrite ?get_trimmed; try assumption.
    - destruct (strNumericLiteral _) eqn:E; [|reflexivity].
      exfalso. apply Hnn. eexists. rewrite get_trimmed. exact E.
    - destruct (strNumericLiteral _) eqn:E; [|reflexivity].
      exfalso. apply Hnn. eexists. rewrite get_trimmed. exact E. }
  split.
  - exists c. repeat split; assumption.
  - destruct (validateCenters_total bounds
                (map (fun r => CommaParser.record
                                 (columnsOf toLowerCase hrow)
                                 (splitBy isComma r))
                     (dataRows Comma text))) as [Hok|Hthrow];
      [|exact Hthrow].
    exfalso. apply validateCenters_ok_iff in Hok.
    rewrite Forall_forall in Hok.
    destruct (Hok c Hc) as (_ & _ & H1 & H2 & _).
    destruct Hnan; congruence.
Qed.

Lemma non_numeric_coordinate_cell_rejected_witness :
  exists recs,
    CommaParser.parseCSV asciiLower badLatText = Ok recs
    /\ exists e, validateCenters recs None = Throw e.
Proof.
  eexists. split; [vm_compute; reflexivity|].
  apply (non_numeric_coordinate_cell_rejected asciiLower badLatText
           (lit "id,name,lat,lng") (lit "c1,Test Center,north,127.05")).
  - vm_compute; reflexivity.
  - vm_compute. left; reflexivity.
  - vm_compute; reflexivity.
  - left. split.
    + vm_compute. discriminate.
    + intros [v Hv]. vm_compute in Hv. discriminate.
Defined.

(** C8. On the empty text the comma-splitting parser returns the empty
    record list; the quote-aware parser reads the header off a row that
    does not exist and throws a TypeError. *)
Theorem empty_text_parse (toLowerCase : jsstring -> jsstring) :
  CommaParser.parseCSV toLowerCase [] = Ok []
  /\ QuoteParser.parseCSV toLowerCase []
     = Throw QuoteParser.undefinedSplit.
Proof. split; reflexivity. Qed.

(** C9. For every input text that holds no double quote, whose line breaks
    are plain line feeds (no carriage return stands before a line feed) and
    whose first line is not blank, the comma-splitting parser and the
    quote-aware parser return the same result: the same record list, or the
    same header error. *)
Theorem parsers_agree_on_plain_text (toLowerCase : jsstring -> jsstring)
      (text : jsstring) :
  ~ In QUOTE text -> hasCRLF text = false -> trim (firstLine text) <> [] ->
  CommaParser.parseCSV toLowerCase text
  = QuoteParser.parseCSV toLowerCase text.
Proof.
  intros Hq Hcr Hfl.
  destruct (rowsOf_plain_first _ Hq Hfl) as (rest & Hrows & Hlines & Hin).
  unfold CommaParser.parseCSV, QuoteParser.parseCSV.
  rewrite (splitLines_noCRLF _ Hcr), Hlines, Hrows. cbv zeta.
  fold (headerNames toLowerCase (firstLine text)).
  rewrite columns_same.
  destruct (requiredPresent _); simpl; [|reflexivity].
  f_equal. rewrite quoted_rowsLoop_filter.
  rewrite comma_rowsLoop_nonBlank by apply filter_Forall.
  simpl. apply map_ext_in. intros r Hr. symmetry. apply record_plain.
  apply filter_In in Hr as [Hr _]. intros Hc.
  apply Hq. eapply splitBy_In; eauto.
Qed.

Lemma parsers_agree_on_plain_text_witness :
  CommaParser.parseCSV asciiLower sampleText
  = QuoteParser.parseCSV asciiLower sampleText.
Proof.
  apply parsers_agree_on_plain_text.
  - apply noQuote_sound. vm_compute; reflexivity.
  - vm_compute; reflexivity.
  - vm_compute. discriminate.
Defined.

(** C10. For every input text whose first non-blank line, split on commas
    and trimmed, holds the columns id, name, lat and lng without regard to
    case, the comma-splitting parser returns a record list, one record per
    non-blank line after the header whatever those lines hold; and the
    header error is the only error the parser throws on any text. *)
Theorem comma_parser_total_under_valid_header
        (toLowerCase : jsstring -> jsstring) (text hrow : jsstring) :
  headerRow Comma text = Some hrow ->
  (forall k, In k required -> In k (headerNames toLowerCase hrow)) ->
  (exists recs,
     CommaParser.parseCSV toLowerCase text = Ok recs
     /\ List.length recs = List.length (dataRows Comma text))
  /\ forall text' e,
       CommaParser.parseCSV toLowerCase text' = Throw e -> e = headerError.
Proof.
  intros Hh Hall. split; [|apply comma_only_header_failure].
  destruct (parse_with_header toLowerCase Comma text hrow Hh)
    as [[_ (recs & Hok)]|[Hmiss _]]; [|contradiction].
  exists recs. split; [exact Hok|].
  rewrite (comma_parse_records toLowerCase text hrow recs Hh Hok).
  apply length_map.
Qed.

Lemma comma_parser_total_under_valid_header_witness :
  exists recs,
    CommaParser.parseCSV asciiLower outOfBoundsText = Ok recs
    /\ List.length recs = 1%nat.
Proof.
  destruct (proj1 (comma_parser_total_under_valid_header asciiLower
                     outOfBoundsText (lit "ID,Name,Lat,Lng")
                     ltac:(vm_compute; reflexivity)
                     ltac:(vm_compute; intros k [<-|[<-|[<-|[<-|[]]]]];
                           auto 10)))
    as (recs & H1 & H2).
  exists recs. split; [exact H1 | exact H2].
Defined.

(* ================================================================== *)
(** * Worked examples                                                  *)
(* ================================================================== *)

Example number_of_empty_text : Number [] = S754_zero false.
Proof. reflexivity. Qed.

Example number_of_blank_text : Number (lit "  ") = S754_zero false.
Proof. vm_compute; reflexivity. Qed.

Example number_of_words : Number (lit "north") = NaN.
Proof. vm_compute; reflexivity. Qed.

Example number_of_decimal :
  Number (lit " 37.50 ") = S754_finite false 5277655813324800 (-47).
Proof. vm_compute; reflexivity. Qed.

Example number_of_hex : Number (lit "0x1F") = ofDecimal false 31 0.
Proof. vm_compute; reflexivity. Qed.

Example number_of_infinity : Number (lit "-Infinity") = S754_infinity true.
Proof. vm_compute; reflexivity. Qed.

Example number_overflows : Number (lit "1e309") = S754_infinity false.
Proof. vm_compute; reflexivity. Qed.

(** The header [id,name,lat,lng,tags] with one row parses to one record,
    classified practical. *)
Example sample_is_practical :
  map examType (recordsOf (CommaParser.parseCSV asciiLower sampleText))
  = [PRACTICAL]
  /\ map (fun c => tagsOf c)
         (recordsOf (CommaParser.parseCSV asciiLower sampleText))
     = [[WRITTEN; PRACTICAL]].
Proof. split; vm_compute; reflexivity. Qed.

(** Activating only the written tag still shows the record; activating a
    tag no record has shows nothing. *)
Example sample_under_tag_filters :
  let recs := recordsOf (CommaParser.parseCSV asciiLower sampleText) in
  filtered asciiLower recs [] [WRITTEN] = recs
  /\ geojson (filtered asciiLower recs [] [lit "night"]) = [].
Proof. split; vm_compute; reflexivity. Qed.

(** A latitude of 200 is outside the jurisdiction bound. *)
Example latitude_200_rejected :
  validateCenters
    (recordsOf (CommaParser.parseCSV asciiLower outOfBoundsText))
    (Some TARGET_BOUNDS)
  = Throw (Error (lit "Test failed: lat out of bounds: c1")).
Proof. vm_compute; reflexivity. Qed.

(** The same batch passes when no bound is supplied. *)
Example latitude_200_unbounded :
  validateCenters
    (recordsOf (CommaParser.parseCSV asciiLower outOfBoundsText)) None
  = Ok tt.
Proof. vm_compute; reflexivity. Qed.

(** Quoting: the record scan of the quote-aware parser keeps the line feed
    of a quoted cell inside its row and drops the quotes, so the row split
    that follows cuts at the comma of the quoted name as well. *)
Example quoted_cells :
  map QuoteParser.splitRow (tl (QuoteParser.rowsOf quotedText))
  = [[lit "c1"; lit "Hall"; lit "East"; lit "37.50"; lit "127.05";
      lit "Gate 2" +++ [LF] +++ lit "3rd floor"]]
  /\ List.length (recordsOf (CommaParser.parseCSV asciiLower quotedText))
     = 2%nat.
Proof. split; vm_compute; reflexivity. Qed.

(** A text of line feeds only: no row for the comma-splitting parser, a
    blank header row for the quote-aware one. *)
Example blank_text :
  CommaParser.parseCSV asciiLower [LF; LF] = Ok []
  /\ QuoteParser.parseCSV asciiLower [LF; LF] = Throw headerError.
Proof. split; vm_compute; reflexivity. Qed.

(* ================================================================== *)
(** * What the parsers return                                          *)
(* ================================================================== *)

Lemma dropWhile_In (p : codeunit -> bool) (s : jsstring) (c : codeunit) :
  In c (dropWhile p s) -> In c s.
Proof.
  induction s as [|x s IH]; simpl; [tauto|].
  destruct (p x); [right; auto | tauto].
Qed.

Lemma trim_In (s : jsstring) (c : codeunit) : In c (trim s) -> In c s.
Proof.
  unfold trim, trimStart, trimEnd. intros H.
  rewrite <- in_rev in H. apply dropWhile_In in H.
  rewrite <- in_rev in H. apply dropWhile_In in H. exact H.
Qed.

(** No piece of a split holds a separator. *)
Lemma splitBy_no_sep (sep : codeunit -> bool) (s : jsstring) :
  forall p c, In p (splitBy sep s) -> In c p -> sep c = false.
Proof.
  induction s as [|x s IH]; intros p c.
  - simpl. intros [<-|[]] [].
  - rewrite splitBy_cons. destruct (sep x) eqn:E.
    + intros [<-|Hp] Hc; [destruct Hc | eapply IH; eauto].
    + intros [<-|Hp] Hc.
      * destruct Hc as [<-|Hc]; [exact E|].
        apply (IH (hd [] (splitBy sep s))); [|assumption].
        rewrite (splitBy_hd_tl sep s) at 2. left; reflexivity.
      * apply (IH p); [|assumption].
        rewrite (splitBy_hd_tl sep s). right; assumption.
Qed.

Lemma parseTags_clean (v : jsstring) :
  Forall cleanTag (CommaParser.parseTags v).
Proof.
  rewrite <- parseTags_same. unfold QuoteParser.parseTags.
  apply Forall_forall. intros t Ht.
  apply filter_In in Ht as [Ht Hne]. apply in_map_iff in Ht as (p & <- & Hp).
  repeat split.
  - apply truthy_iff; assumption.
  - apply trim_idem.
  - intros c Hc. apply trim_In in Hc. eapply splitBy_no_sep; eauto.
Qed.

Lemma val_trimmed_twice (cells : list jsstring) (i : Z) :
  trim (QuoteParser.val cells i) = QuoteParser.val cells i.
Proof.
  unfold QuoteParser.val. destruct (0 <=? i)%Z; [apply trim_idem|reflexivity].
Qed.

Lemma comma_record_tidy (cols : Columns) (cells : list jsstring) :
  tidyRecord (CommaParser.record cols cells).
Proof.
  unfold tidyRecord, trimmedField, CommaParser.record; cbn.
  repeat split; try apply get_trimmed;
    try (eexists; split; [reflexivity | apply get_trimmed]).
  eexists; split; [reflexivity | apply parseTags_clean].
Qed.

Lemma quoted_record_tidy (cols : Columns) (cells : list jsstring) :
  tidyRecord (QuoteParser.record cols cells).
Proof.
  unfold tidyRecord, trimmedField, QuoteParser.record; cbn.
  repeat split; try apply val_trimmed_twice;
    try (eexists; split; [reflexivity | apply val_trimmed_twice]).
  eexists; split; [reflexivity|].
  rewrite parseTags_same. apply parseTags_clean.
Qed.

Lemma comma_rowsLoop_In (cols : Columns) (rows : list jsstring) :
  forall out c,
  In c (CommaParser.rowsLoop cols rows out) ->
  In c out \/ exists cells, c = CommaParser.record cols cells.
Proof.
  induction rows as [|r rows IH]; intros out c; simpl; [auto|].
  destruct (_ && _); intros H; apply IH in H as [H|H]; auto.
  apply in_app_or in H as [H|[<-|[]]]; eauto.
Qed.

Lemma quoted_rowsLoop_In (cols : Columns) (rows : list jsstring) :
  forall out c,
  In c (QuoteParser.rowsLoop cols rows out) ->
  In c out \/ exists cells, c = QuoteParser.record cols cells.
Proof.
  induction rows as [|r rows IH]; intros out c; simpl; [auto|].
  destruct (negb _); intros H; apply IH in H as [H|H]; auto.
  apply in_app_or in H as [H|[<-|[]]]; eauto.
Qed.

Lemma parse_tidy
      (toLowerCase : jsstring -> jsstring) (v : variant)
      (text : jsstring) (recs : list Center) (c : Center) :
  parseCSV_of v toLowerCase text = Ok recs ->
  In c recs ->
  tidyRecord c.
Proof.
  destruct v; simpl.
  - unfold CommaParser.parseCSV.
    destruct (filter CommaParser.nonBlank (splitLines text)) as [|l0 rows].
    + intros H; inversion H; subst. intros [].
    + cbv zeta. destruct (requiredPresent _); simpl; [|discriminate].
      intros H; inversion H; subst. intros Hc.
      apply comma_rowsLoop_In in Hc as [[]|(cells & ->)].
      apply comma_record_tidy.
  - unfold QuoteParser.parseCSV.
    destruct (QuoteParser.rowsOf text) as [|r0 rows]; [discriminate|].
    cbv zeta. destruct (requiredPresent _); simpl; [|discriminate].
    intros H; inversion H; subst. intros Hc.
    apply quoted_rowsLoop_In in Hc as [[]|(cells & ->)].
    apply quoted_record_tidy.
Qed.

(** X1. Every record either parser returns is tidy: id, name and the four
    optional texts are present and carry no surrounding white space, and
    every tag is non-empty, trimmed and free of the separators. *)
Theorem parsed_records_are_tidy
        (toLowerCase : jsstring -> jsstring) (v : variant)
        (text : jsstring) (recs : list Center) :
  parseCSV_of v toLowerCase text = Ok recs ->
  Forall tidyRecord recs.
Proof.
  intros Hp. apply Forall_forall. intros c Hc.
  exact (parse_tidy toLowerCase v text recs c Hp Hc).
Qed.

Lemma parsed_records_are_tidy_witness :
  exists recs,
    parseCSV_of Quoted asciiLower sampleText = Ok recs
    /\ Forall tidyRecord recs.
Proof.
  eexists. split; [vm_compute; reflexivity|].
  apply (parsed_records_are_tidy asciiLower Quoted sampleText).
  vm_compute; reflexivity.
Defined.

Lemma tidy_hasTag (c : Center) (t : jsstring) :
  tidyRecord c -> (hasTag c t = true <-> In t (tagsOf c)).
Proof.
  intros (_ & _ & _ & _ & _ & _ & l & Hl & Hclean).
  unfold hasTag, tagsOf. rewrite Hl. rewrite Forall_forall in Hclean.
  rewrite existsb_exists. split.
  - intros (x & Hx & E). apply eqb_eq in E.
    destruct (Hclean x Hx) as (_ & Ht & _). congruence.
  - intros Ht. exists t. split; [assumption|].
    destruct (Hclean t Ht) as (_ & E & _). apply eqb_eq. exact E.
Qed.

(** X2. On a record either parser returns, the category is decided by
    which of the two literal tags are elements of its tag list. *)
Theorem parsed_records_classified_by_literal_tags
        (toLowerCase : jsstring -> jsstring) (v : variant)
        (text : jsstring) (recs : list Center) (c : Center) :
  parseCSV_of v toLowerCase text = Ok recs ->
  In c recs ->
  classifiedByLiteralTags c.
Proof.
  intros Hp Hc.
  pose proof (parse_tidy toLowerCase v text recs c Hp Hc) as T.
  unfold classifiedByLiteralTags, examType.
  rewrite <- !(tidy_hasTag c _ T).
  repeat split.
  - intros ->. reflexivity.
  - intros H1 H2. apply not_true_is_false in H1. rewrite H1, H2. reflexivity.
  - intros H1 H2. apply not_true_is_false in H1, H2. rewrite H1, H2.
    reflexivity.
Qed.

Lemma parsed_records_classified_by_literal_tags_witness :
  exists recs,
    parseCSV_of Comma asciiLower sampleText = Ok recs
    /\ Forall classifiedByLiteralTags recs.
Proof.
  eexists. split; [vm_compute; reflexivity|].
  apply Forall_forall. intros c Hc.
  eapply (parsed_records_classified_by_literal_tags
            asciiLower Comma sampleText);
    [vm_compute; reflexivity | exact Hc].
Defined.

(** Every record of a parse is built from the columns of the header row. *)
Lemma parsed_record_shape (toLowerCase : jsstring -> jsstring) (v : variant)
      (text hrow : jsstring) (recs : list Center) (c : Center) :
  headerRow v text = Some hrow ->
  parseCSV_of v toLowerCase text = Ok recs ->
  In c recs ->
  exists cells, c = recordOf v (columnsOf toLowerCase hrow) cells.
Proof.
  destruct v; simpl.
  - unfold CommaParser.parseCSV.
    destruct (filter CommaParser.nonBlank (splitLines text)) as [|l0 rows];
      [discriminate|].
    intros H; inversion H; subst l0. cbv zeta.
    destruct (requiredPresent _); simpl; [|discriminate].
    intros H2; inversion H2; subst. intros Hc.
    apply comma_rowsLoop_In in Hc as [[]|(cells & ->)]. eauto.
  - unfold QuoteParser.parseCSV.
    destruct (QuoteParser.rowsOf text) as [|r0 rows]; [discriminate|].
    intros H; inversion H; subst r0. cbv zeta.
    fold (headerNames toLowerCase hrow). rewrite columns_same.
    destruct (requiredPresent _); simpl; [|discriminate].
    intros H2; inversion H2; subst. intros Hc.
    apply quoted_rowsLoop_In in Hc as [[]|(cells & ->)]. eauto.
Qed.

Lemma absent_column_index (toLowerCase : jsstring -> jsstring)
      (hrow k : jsstring) :
  ~ In k (headerNames toLowerCase hrow) ->
  (0 <=? CommaParser.idx toLowerCase (map trim (splitBy isComma hrow)) k)%Z
  = false.
Proof.
  intros H. apply not_true_is_false. intros E. apply H.
  apply comma_idx_nonneg. exact E.
Qed.

Lemma get_absent (cells : list jsstring) (i : Z) :
  (0 <=? i)%Z = false -> CommaParser.get cells i = [].
Proof. unfold CommaParser.get. intros ->. reflexivity. Qed.

Lemma val_absent (cells : list jsstring) (i : Z) :
  (0 <=? i)%Z = false -> QuoteParser.val cells i = [].
Proof. unfold QuoteParser.val. intros ->. reflexivity. Qed.

(** X3. A column the header does not name is filled in, not left out:
    when the header row lacks address, phone, hours or note, that field of
    every record either parser returns is present and is the empty string,
    and when it lacks tags the tag list of every record is present and
    empty. *)
Theorem absent_optional_column_is_empty
        (toLowerCase : jsstring -> jsstring) (v : variant)
        (text hrow : jsstring) (recs : list Center) (c : Center) :
  headerRow v text = Some hrow ->
  parseCSV_of v toLowerCase text = Ok recs ->
  In c recs ->
  (~ In (lit "address") (headerNames toLowerCase hrow) ->
   address c = Some [])
  /\ (~ In (lit "phone") (headerNames toLowerCase hrow) ->
      phone c = Some [])
  /\ (~ In (lit "hours") (headerNames toLowerCase hrow) ->
      hours c = Some [])
  /\ (~ In (lit "note") (headerNames toLowerCase hrow) ->
      note c = Some [])
  /\ (~ In (lit "tags") (headerNames toLowerCase hrow) ->
      tags c = Some []).
Proof.
  intros Hh Hp Hc.
  destruct (parsed_record_shape toLowerCase v text hrow recs c Hh Hp Hc)
    as (cells & ->).
  repeat split; intros Habs;
    pose proof (absent_column_index toLowerCase hrow _ Habs) as E;
    destruct v; cbn; f_equal;
    first [ apply get_absent; exact E
          | apply val_absent; exact E
          | rewrite (get_absent _ _ E); reflexivity
          | rewrite (val_absent _ _ E); reflexivity ].
Qed.

Lemma absent_optional_column_is_empty_witness :
  exists recs,
    parseCSV_of Quoted asciiLower outOfBoundsText = Ok recs
    /\ Forall (fun c => phone c = Some [] /\ tags c = Some []) recs.
Proof.
  eexists. split; [vm_compute; reflexivity|].
  apply Forall_forall. intros c Hc.
  edestruct (absent_optional_column_is_empty asciiLower Quoted
               outOfBoundsText (lit "ID,Name,Lat,Lng"))
    as (_ & H1 & _ & _ & H2).
  - vm_compute; reflexivity.
  - vm_compute; reflexivity.
  - exact Hc.
  - split.
    + apply H1. vm_compute. intros [E|[E|[E|[E|[]]]]]; discriminate.
    + apply H2. vm_compute. intros [E|[E|[E|[E|[]]]]]; discriminate.
Defined.

(* ================================================================== *)
(** * More on the validator                                            *)
(* ================================================================== *)

Lemma wellFormed_without_bound (b : Bounds) (c : Center) :
  wellFormed (Some b) c -> wellFormed None c.
Proof. unfold wellFormed. intuition. Qed.

Lemma south_west_positive :
  forall x, ge x (getSouth TARGET_BOUNDS) = true
            \/ ge x (getWest TARGET_BOUNDS) = true ->
            forall hi, le x hi = true -> isFinite hi = true ->
                       isFinite x = true /\ forall s, x <> S754_zero s.
Proof.
  intros x Hlo hi Hhi Hfin.
  destruct x as [s| [|] | |s m e]; simpl.
  - exfalso. destruct Hlo as [H|H]; vm_compute in H; discriminate.
  - exfalso. destruct Hlo as [H|H]; vm_compute in H; discriminate.
  - exfalso. destruct hi as [?|[|]| |? ? ?]; simpl in *; discriminate.
  - exfalso. destruct Hlo as [H|H]; vm_compute in H; discriminate.
  - split; [reflexivity | discriminate].
Qed.

Lemma bounded_record_finite (c : Center) :
  wellFormed (Some TARGET_BOUNDS) c ->
  isFinite (lat c) = true /\ isFinite (lng c) = true
  /\ (forall s, lat c <> S754_zero s) /\ (forall s, lng c <> S754_zero s).
Proof.
  intros (_ & _ & _ & _ & ((H1 & H2) & (H3 & H4))).
  destruct (south_west_positive (lat c) (or_introl H1) _ H2 eq_refl)
    as [F1 Z1].
  destruct (south_west_positive (lng c) (or_intror H3) _ H4 eq_refl)
    as [F2 Z2].
  auto.
Qed.

(** X4. A batch the validator accepts under a bound it accepts without
    one; and every record of a batch accepted under the jurisdiction bound
    has finite coordinates, none of them a zero of either sign. *)
Theorem accepted_under_bound (data : list Center) :
  (forall b, validateCenters data (Some b) = Ok tt ->
             validateCenters data None = Ok tt)
  /\ (validateCenters data (Some TARGET_BOUNDS) = Ok tt ->
      forall c, In c data ->
        isFinite (lat c) = true /\ isFinite (lng c) = true
        /\ (forall s, lat c <> S754_zero s)
        /\ (forall s, lng c <> S754_zero s)).
Proof.
  split.
  - intros b H. apply validateCenters_ok_iff in H.
    apply validateCenters_ok_iff.
    eapply Forall_impl; [|exact H]. apply wellFormed_without_bound.
  - intros H c Hc. apply validateCenters_ok_iff in H.
    rewrite Forall_forall in H. apply bounded_record_finite. auto.
Qed.

Lemma accepted_under_bound_witness :
  validateCenters [sampleCenter (lit "A") []] None = Ok tt
  /\ isFinite (lat (sampleCenter (lit "A") [])) = true.
Proof.
  split.
  - apply (proj1 (accepted_under_bound [sampleCenter (lit "A") []])
                 TARGET_BOUNDS).
    vm_compute; reflexivity.
  - apply (proj2 (accepted_under_bound [sampleCenter (lit "A") []])).
    + vm_compute; reflexivity.
    + left; reflexivity.
Defined.

(** X5. Under the jurisdiction bound an empty coordinate cell is caught:
    a data row whose lat or lng cell is empty after trimming makes the
    validator reject the parse of the comma-splitting parser, so a paste of
    such a text leaves the batch as it was. *)
Theorem empty_coordinate_cell_rejected_under_bound
        (toLowerCase : jsstring -> jsstring) (text hrow row : jsstring)
        (recs : list Center) (st : AppState) :
  headerRow Comma text = Some hrow ->
  In row (dataRows Comma text) ->
  CommaParser.parseCSV toLowerCase text = Ok recs ->
  latCell toLowerCase hrow row = [] \/ lngCell toLowerCase hrow row = [] ->
  (exists e, validateCenters recs (Some TARGET_BOUNDS) = Throw e)
  /\ centers (onPasteCSV (CommaParser.parseCSV toLowerCase) text st)
     = centers st.
Proof.
  intros Hh Hrow Hp Hempty.
  assert (Hthrow : exists e,
             validateCenters recs (Some TARGET_BOUNDS) = Throw e).
  { destruct (validateCenters_total (Some TARGET_BOUNDS) recs)
      as [Hok|Ht]; [|exact Ht]. exfalso.
    apply validateCenters_ok_iff in Hok. rewrite Forall_forall in Hok.
    pose proof (comma_parse_records toLowerCase text hrow recs Hh Hp) as E.
    set (c := CommaParser.record (columnsOf toLowerCase hrow)
                                 (splitBy isComma row)).
    assert (Hc : In c recs).
    { rewrite E.
      apply (in_map (fun r => CommaParser.record
                                (columnsOf toLowerCase hrow)
                                (splitBy isComma r))). exact Hrow. }
    destruct (bounded_record_finite c (Hok c Hc)) as (_ & _ & Z1 & Z2).
    unfold latCell, lngCell in Hempty.
    destruct Hempty as [H|H]; [apply (Z1 false) | apply (Z2 false)];
      cbn [c CommaParser.record lat lng]; rewrite H; reflexivity. }
  split; [exact Hthrow|].
  destruct Hthrow as [e He].
  unfold onPasteCSV.
  rewrite (proj2 (parseAndValidate_throw _ text e)); [reflexivity|].
  right. exists recs. auto.
Qed.

Lemma empty_coordinate_cell_rejected_under_bound_witness :
  centers (onPasteCSV (CommaParser.parseCSV asciiLower) emptyLatText
             (setCenters [sampleCenter (lit "A") []] emptyState))
  = [sampleCenter (lit "A") []].
Proof.
  eapply (empty_coordinate_cell_rejected_under_bound asciiLower emptyLatText
            (lit "id,name,lat,lng") (lit "c1,Test Center,,127.05")).
  - vm_compute; reflexivity.
  - vm_compute. left; reflexivity.
  - vm_compute; reflexivity.
  - left. vm_compute; reflexivity.
Defined.

(* ================================================================== *)
(** * Tag universe and tag selection                                   *)
(* ================================================================== *)

Lemma strLt_irrefl (a : jsstring) : strLt a a = false.
Proof.
  induction a as [|x a IH]; simpl; [reflexivity|].
  rewrite N.ltb_irrefl, N.eqb_refl, IH. reflexivity.
Qed.

Lemma strLt_trichotomy (a b : jsstring) :
  strLt a b = false -> a <> b -> strLt b a = true.
Proof.
  revert b; induction a as [|x a IH]; intros [|y b]; simpl; intros H Hne;
    try congruence; try discriminate.
  apply orb_false_iff in H as [H1 H2].
  apply N.ltb_ge in H1.
  destruct (y <? x)%N eqn:E; [reflexivity|]. apply N.ltb_ge in E.
  assert (x = y) by lia. subst y. rewrite N.eqb_refl in *. simpl in *.
  apply IH; [exact H2 | congruence].
Qed.

Lemma strLt_asym (a b : jsstring) : strLt a b = true -> strLt b a = false.
Proof.
  revert b; induction a as [|x a IH]; intros [|y b]; simpl; intros H;
    try reflexivity; try discriminate.
  apply orb_true_iff in H as [H|H].
  - apply N.ltb_lt in H. apply orb_false_iff. split.
    + apply N.ltb_ge; lia.
    + assert (E : (y =? x)%N = false) by (apply N.eqb_neq; lia).
      rewrite E. reflexivity.
  - apply andb_true_iff in H as [H1 H2]. apply N.eqb_eq in H1; subst y.
    rewrite N.ltb_irrefl, N.eqb_refl. simpl. auto.
Qed.

Lemma strLt_trans (a b c : jsstring) :
  strLt a b = true -> strLt b c = true -> strLt a c = true.
Proof.
  revert b c; induction a as [|x a IH]; intros [|y b] [|z c]; simpl;
    intros H1 H2; try reflexivity; try discriminate.
  apply orb_true_iff in H1. apply orb_true_iff in H2. apply orb_true_iff.
  rewrite !andb_true_iff, !N.ltb_lt, !N.eqb_eq in *.
  destruct H1 as [H1|[H1 H1']], H2 as [H2|[H2 H2']]; subst;
    try (left; lia).
  right. split; [reflexivity | eauto].
Qed.

Lemma insertSorted_In (x : jsstring) (l : list jsstring) (y : jsstring) :
  In y (insertSorted x l) <-> y = x \/ In y l.
Proof.
  induction l as [|z l IH]; simpl.
  - intuition.
  - destruct (strLt x z); simpl; [intuition | rewrite IH; intuition].
Qed.

Lemma arraySort_In (l : list jsstring) (y : jsstring) :
  In y (arraySort l) <-> In y l.
Proof.
  induction l as [|x l IH]; simpl; [tauto|].
  rewrite insertSorted_In, IH. intuition.
Qed.

Lemma insertSorted_ascending (x : jsstring) (l : list jsstring) :
  ascending l -> ~ In x l -> ascending (insertSorted x l).
Proof.
  unfold ascending. induction l as [|y l IH]; intros Hs Hn; simpl.
  - constructor; constructor.
  - inversion Hs as [|? ? Hl Hall]; subst.
    destruct (strLt x y) eqn:E.
    + constructor; [exact Hs|]. constructor; [exact E|].
      eapply Forall_impl; [|exact Hall].
      intros z Hz. eapply strLt_trans; eauto.
    + assert (Hyx : strLt y x = true).
      { apply strLt_trichotomy; [exact E|]. intros ->. apply Hn; left; auto. }
      constructor.
      * apply IH; [exact Hl|]. intros H; apply Hn; right; exact H.
      * apply Forall_forall. intros z Hz.
        apply insertSorted_In in Hz as [->|Hz]; [exact Hyx|].
        rewrite Forall_forall in Hall. auto.
Qed.

Lemma arraySort_ascending (l : list jsstring) :
  NoDup l -> ascending (arraySort l).
Proof.
  induction 1 as [|x l Hn Hd IH]; simpl.
  - constructor.
  - apply insertSorted_ascending; [exact IH|].
    rewrite arraySort_In. exact Hn.
Qed.

Lemma ascending_NoDup (l : list jsstring) : ascending l -> NoDup l.
Proof.
  induction 1 as [|x l Hs IH Hall]; constructor; [|exact IH].
  intros Hin. rewrite Forall_forall in Hall.
  specialize (Hall x Hin). rewrite strLt_irrefl in Hall. discriminate.
Qed.

Lemma setAdd_In (s : list jsstring) (x y : jsstring) :
  In y (setAdd s x) <-> In y s \/ y = x.
Proof.
  unfold setAdd. destruct (arrIncludes s x) eqn:E.
  - apply arrIncludes_In in E. split; [auto|]. intros [H| ->]; auto.
  - rewrite in_app_iff. simpl. intuition.
Qed.

Lemma setAdd_NoDup (s : list jsstring) (x : jsstring) :
  NoDup s -> NoDup (setAdd s x).
Proof.
  unfold setAdd. intros H. destruct (arrIncludes s x) eqn:E; [exact H|].
  apply NoDup_app; [exact H | constructor; [intros [] | constructor] |].
  intros y Hy [<-|[]]. apply arrIncludes_In in Hy. congruence.
Qed.

Lemma collect_tags_spec (f : jsstring -> jsstring) (l : list jsstring) :
  forall s,
  NoDup s ->
  NoDup (fold_left (fun s t => setAdd s (f t)) l s)
  /\ forall y, In y (fold_left (fun s t => setAdd s (f t)) l s)
               <-> In y s \/ exists t, In t l /\ f t = y.
Proof.
  induction l as [|t l IH]; intros s Hs; simpl.
  - split; [exact Hs|]. intros y. split; [auto|].
    intros [H|(t & [] & _)]; exact H.
  - destruct (IH (setAdd s (f t)) (setAdd_NoDup s (f t) Hs)) as [H1 H2].
    split; [exact H1|]. intros y. rewrite H2, setAdd_In. split.
    + intros [[H| ->]|(u & Hu & E)]; eauto.
    + intros [H|(u & [<-|Hu] & E)]; eauto.
Qed.

Lemma collect_centers_spec (cs : list Center) :
  forall s,
  NoDup s ->
  let r := fold_left
             (fun s c => fold_left (fun s t => setAdd s (trim t))
                                   (tagsOf c) s) cs s in
  NoDup r
  /\ forall y, In y r
               <-> In y s
                   \/ exists c t, In c cs /\ In t (tagsOf c) /\ trim t = y.
Proof.
  induction cs as [|c cs IH]; intros s Hs; simpl.
  - split; [exact Hs|]. intros y. split; [auto|].
    intros [H|(c & t & [] & _)]; exact H.
  - destruct (collect_tags_spec trim (tagsOf c) s Hs) as [N1 M1].
    destruct (IH _ N1) as [N2 M2]. split; [exact N2|].
    intros y. rewrite M2, M1. split.
    + intros [[H|(t & Ht & E)]|(c' & t & Hc & Ht & E)]; eauto 8.
    + intros [H|(c' & t & [<-|Hc] & Ht & E)]; eauto 8.
Qed.

(** X6. The tag universe holds exactly the trimmed tags of the records,
    each once, in ascending order of their code units. *)
Theorem allTags_sorted_distinct_complete (centers : list Center) :
  ascending (allTags centers)
  /\ NoDup (allTags centers)
  /\ forall t, In t (allTags centers)
               <-> exists c x, In c centers /\ In x (tagsOf c) /\ trim x = t.
Proof.
  unfold allTags.
  destruct (collect_centers_spec centers [] (NoDup_nil _)) as [N M].
  cbv zeta in N, M.
  assert (A : ascending (arraySort
            (fold_left (fun s c => fold_left (fun s t => setAdd s (trim t))
                                             (tagsOf c) s) centers [])))
    by (apply arraySort_ascending; exact N).
  split; [exact A|]. split; [apply ascending_NoDup; exact A|].
  intros t. rewrite arraySort_In, M. split.
  - intros [[]|H]; exact H.
  - auto.
Qed.

(* toggling *)

Lemma toggleTag_In (t : jsstring) (prev : list jsstring) (x : jsstring) :
  In x (toggleTag t prev)
  <-> (x <> t /\ In x prev) \/ (x = t /\ ~ In t prev).
Proof.
  unfold toggleTag. destruct (arrIncludes prev t) eqn:E.
  - apply arrIncludes_In in E. rewrite filter_In, negb_true_iff, eqb_neq.
    split; [intros [H1 H2]; auto | intros [[H1 H2]|[-> H2]]; tauto].
  - assert (Hn : ~ In t prev).
    { intros H. apply arrIncludes_In in H. congruence. }
    rewrite in_app_iff. simpl. split.
    + intros [H|[<-|[]]]; [left; split; [intros ->; auto | exact H] | auto].
    + intros [[H1 H2]|[-> H2]]; auto.
Qed.

Lemma toggleTag_NoDup (t : jsstring) (prev : list jsstring) :
  NoDup prev -> NoDup (toggleTag t prev).
Proof.
  unfold toggleTag. intros H. destruct (arrIncludes prev t) eqn:E.
  - apply NoDup_filter. exact H.
  - apply NoDup_app; [exact H | constructor; [intros [] | constructor] |].
    intros y Hy [<-|[]]. apply arrIncludes_In in Hy. congruence.
Qed.

Lemma filter_absent (t : jsstring) (l : list jsstring) :
  ~ In t l -> filter (fun x => negb (eqb x t)) l = l.
Proof.
  induction l as [|y l IH]; simpl; intros H; [reflexivity|].
  assert (E : eqb y t = false) by (apply eqb_neq; intros ->; apply H; auto).
  rewrite E. simpl. f_equal. apply IH. intros H'; apply H; auto.
Qed.

(** X7. Toggling a tag flips its membership in the selection and leaves
    the other tags as they were; a selection without duplicates stays
    without duplicates; and switching a tag on and off again restores the
    selection. *)
Theorem toggleTag_flips_membership (t : jsstring) (prev : list jsstring) :
  (forall x, In x (toggleTag t prev)
             <-> (x <> t /\ In x prev) \/ (x = t /\ ~ In t prev))
  /\ (NoDup prev -> NoDup (toggleTag t prev))
  /\ (~ In t prev -> toggleTag t (toggleTag t prev) = prev).
Proof.
  split; [apply toggleTag_In|]. split; [apply toggleTag_NoDup|].
  intros Hn. unfold toggleTag at 2.
  assert (E : arrIncludes prev t = false).
  { apply not_true_is_false. intros H. apply arrIncludes_In in H. auto. }
  rewrite E. unfold toggleTag.
  assert (E2 : arrIncludes (prev ++ [t]) t = true).
  { apply arrIncludes_In. apply in_or_app. right; left; reflexivity. }
  rewrite E2, filter_app, (filter_absent t prev Hn). simpl.
  rewrite eqb_refl. simpl. apply app_nil_r.
Qed.

Lemma toggleTag_flips_membership_witness :
  toggleTag WRITTEN (toggleTag WRITTEN [PRACTICAL]) = [PRACTICAL].
Proof.
  apply (proj2 (proj2 (toggleTag_flips_membership WRITTEN [PRACTICAL]))).
  intros [E|[]]. vm_compute in E. discriminate.
Defined.

(* ================================================================== *)
(** * How the filters compose                                          *)
(* ================================================================== *)

Lemma filter_comm {A} (p q : A -> bool) (l : list A) :
  filter p (filter q l) = filter q (filter p l).
Proof.
  induction l as [|x l IH]; simpl; [reflexivity|].
  destruct (p x) eqn:P, (q x) eqn:Q; simpl; rewrite ?P, ?Q, IH; reflexivity.
Qed.

Lemma filter_idem {A} (p : A -> bool) (l : list A) :
  filter p (filter p l) = filter p l.
Proof.
  induction l as [|x l IH]; simpl; [reflexivity|].
  destruct (p x) eqn:P; simpl; rewrite ?P, IH; reflexivity.
Qed.

(** X8. The two filters commute: filtering by tags first and by the query
    second gives the same list.  Filtering what was filtered, with the same
    query and tags, changes nothing; every record shown is a record of the
    batch, and none is shown twice unless the batch holds it twice. *)
Theorem filters_commute_and_are_idempotent
        (toLowerCase : jsstring -> jsstring) (centers : list Center)
        (query : jsstring) (active : list jsstring) :
  filtered toLowerCase centers query active
  = textStage toLowerCase (toLowerCase (trim query)) (tagStage active centers)
  /\ filtered toLowerCase (filtered toLowerCase centers query active)
              query active
     = filtered toLowerCase centers query active
  /\ (forall c, In c (filtered toLowerCase centers query active) ->
                In c centers)
  /\ (NoDup centers -> NoDup (filtered toLowerCase centers query active)).
Proof.
  unfold filtered, textStage, tagStage. cbv zeta.
  set (mq := matchesQuery toLowerCase (toLowerCase (trim query))).
  set (mt := matchesTags active).
  destruct (truthy (toLowerCase (trim query))),
           (0 <? List.length active)%nat;
    (split; [|split; [|split]]);
    try reflexivity;
    try (intros c Hc; repeat (apply filter_In in Hc as [Hc _]); exact Hc);
    try (intros Hd; repeat apply NoDup_filter; exact Hd);
    try apply filter_idem.
  - apply filter_comm.
  - rewrite (filter_comm mq mt (filter mq centers)).
    rewrite filter_idem, filter_idem. reflexivity.
Qed.

Lemma filters_commute_and_are_idempotent_witness :
  NoDup (filtered asciiLower [sampleCenter (lit "A") [WRITTEN]] []
                  [WRITTEN]).
Proof.
  apply (proj2 (proj2 (proj2 (filters_commute_and_are_idempotent asciiLower
           [sampleCenter (lit "A") [WRITTEN]] [] [WRITTEN])))).
  constructor; [intros [] | constructor].
Defined.

Lemma filtered_active (toLowerCase : jsstring -> jsstring)
      (cs : list Center) (query : jsstring) (active : list jsstring)
      (c : Center) :
  active <> [] ->
  (In c (filtered toLowerCase cs query active)
   <-> In c (filtered toLowerCase cs query [])
       /\ exists t, In t (tagsOf c) /\ In t active).
Proof.
  intros Hact. rewrite !filtered_stages, tagStage_nil.
  rewrite (tagStage_active active _ Hact), filter_In, matchesTags_spec.
  reflexivity.
Qed.

(** X9. Tags add up: while some tag is active, switching on one more tag
    keeps every record that was shown; with no tag active, switching on the
    first tag shows, of the records the query keeps, exactly those that
    hold that tag. *)
Theorem switching_on_a_tag
        (toLowerCase : jsstring -> jsstring) (centers : list Center)
        (query : jsstring) (active : list jsstring) (t : jsstring) :
  ~ In t active ->
  (active <> [] ->
   forall c, In c (filtered toLowerCase centers query active) ->
             In c (filtered toLowerCase centers query (toggleTag t active)))
  /\ (active = [] ->
      forall c, In c (filtered toLowerCase centers query (toggleTag t active))
                <-> In c (filtered toLowerCase centers query [])
                    /\ In t (tagsOf c)).
Proof.
  intros Hn.
  assert (E : toggleTag t active = active ++ [t]).
  { unfold toggleTag.
    assert (F : arrIncludes active t = false).
    { apply not_true_is_false. intros H. apply arrIncludes_In in H. auto. }
    rewrite F. reflexivity. }
  rewrite E. split.
  - intros Hact c Hc.
    apply (filtered_active toLowerCase centers query active c Hact) in Hc
      as [H1 (x & Hx & Ha)].
    apply filtered_active; [destruct active; discriminate|].
    split; [exact H1|]. exists x. split; [exact Hx|].
    apply in_or_app; left; exact Ha.
  - intros -> c. simpl. rewrite filtered_active by discriminate.
    split.
    + intros [H1 (x & Hx & [<-|[]])]. auto.
    + intros [H1 H2]. split; [exact H1|]. exists t. simpl; auto.
Qed.

Lemma switching_on_a_tag_witness :
  In (sampleCenter (lit "A") [WRITTEN])
     (filtered asciiLower [sampleCenter (lit "A") [WRITTEN]] []
               (toggleTag PRACTICAL [WRITTEN])).
Proof.
  apply (proj1 (switching_on_a_tag asciiLower
                  [sampleCenter (lit "A") [WRITTEN]] [] [WRITTEN] PRACTICAL
                  ltac:(intros [E|[]]; vm_compute in E; discriminate))).
  - discriminate.
  - vm_compute. left; reflexivity.
Defined.

(** X10. After a parse every tag of the tag universe selects something:
    with an empty query, activating one tag of [allTags] alone shows at
    least one record, and every record shown holds that tag. *)
Theorem every_universe_tag_selects_a_record
        (toLowerCase : jsstring -> jsstring) (v : variant)
        (text : jsstring) (recs : list Center) (t : jsstring) :
  toLowerCase [] = [] ->
  parseCSV_of v toLowerCase text = Ok recs ->
  In t (allTags recs) ->
  filtered toLowerCase recs [] [t] <> []
  /\ forall c, In c (filtered toLowerCase recs [] [t]) -> In t (tagsOf c).
Proof.
  intros Hlow Hp Ht.
  assert (E : filtered toLowerCase recs [] [t]
              = filter (matchesTags [t]) recs).
  { unfold filtered. rewrite trim_nil, Hlow. reflexivity. }
  rewrite E. split.
  - destruct (collect_centers_spec recs [] (NoDup_nil _)) as [_ M].
    cbv zeta in M. unfold allTags in Ht. rewrite arraySort_In, M in Ht.
    destruct Ht as [[]|(c & x & Hc & Hx & Etr)].
    pose proof (parse_tidy toLowerCase v text recs c Hp Hc)
      as (_ & _ & _ & _ & _ & _ & l & Hl & Hclean).
    assert (Hxt : x = t).
    { unfold tagsOf in Hx. rewrite Hl in Hx. rewrite Forall_forall in Hclean.
      destruct (Hclean x Hx) as (_ & Hx' & _). congruence. }
    subst x.
    assert (Hin : In c (filter (matchesTags [t]) recs)).
    { apply filter_In. split; [exact Hc|]. apply matchesTags_spec.
      exists t. simpl; auto. }
    intros Hnil. rewrite Hnil in Hin. destruct Hin.
  - intros c Hc. apply filter_In in Hc as [_ Hc].
    apply matchesTags_spec in Hc as (x & Hx & [<-|[]]). exact Hx.
Qed.

Lemma every_universe_tag_selects_a_record_witness :
  exists recs,
    parseCSV_of Comma asciiLower sampleText = Ok recs
    /\ filtered asciiLower recs [] [WRITTEN] <> [].
Proof.
  eexists. split; [vm_compute; reflexivity|].
  apply (every_universe_tag_selects_a_record asciiLower Comma sampleText).
  - reflexivity.
  - vm_compute; reflexivity.
  - vm_compute. right; left; reflexivity.
Defined.

(* ================================================================== *)
(** * The public load and sessions                                     *)
(* ================================================================== *)

Lemma setCenters_fields (v : list Center) (st : AppState) :
  query (setCenters v st) = query st
  /\ csvError (setCenters v st) = csvError st
  /\ activeTags (setCenters v st) = activeTags st
  /\ centers (setCenters v st) = v.
Proof. repeat split. Qed.

(** What a load that ends normally did to the state. *)
Lemma loadCsvFallback_ok (parseCSV : jsstring -> result (list Center))
      (csvRes : Fetch jsstring) (st st' : AppState) :
  loadCsvFallback parseCSV csvRes st = Ok st' ->
  st' = st
  \/ exists text parsed,
       csvRes = Response true (Ok text)
       /\ parseCSV text = Ok parsed /\ parsed <> []
       /\ validateCenters parsed None = Ok tt
       /\ st' = setCenters parsed st.
Proof.
  unfold loadCsvFallback.
  destruct csvRes as [e|[|] [text|e]]; simpl; try discriminate;
    try (intros H; inversion H; auto; fail).
  destruct (parseCSV text) as [parsed|e] eqn:P; simpl; [|discriminate].
  destruct parsed as [|c rest]; simpl.
  - intros H; inversion H; auto.
  - destruct (validateCenters (c :: rest) None) as [[]|e] eqn:V; simpl;
      [|discriminate].
    intros H; inversion H. right. exists text, (c :: rest).
    repeat split; auto. discriminate.
Qed.

Lemma loadPublicBody_ok (parseCSV : jsstring -> result (list Center))
      (jsonRes : Fetch Json) (csvRes : Fetch jsstring) (st st' : AppState) :
  loadPublicBody parseCSV jsonRes csvRes st = Ok st' ->
  st' = st
  \/ exists batch,
       batch <> [] /\ validateCenters batch None = Ok tt
       /\ st' = setCenters batch st.
Proof.
  assert (F : loadCsvFallback parseCSV csvRes st = Ok st' ->
              st' = st
              \/ exists batch,
                   batch <> [] /\ validateCenters batch None = Ok tt
                   /\ st' = setCenters batch st).
  { intros H. apply loadCsvFallback_ok in H
      as [H|(text & parsed & _ & _ & H1 & H2 & H3)]; eauto. }
  unfold loadPublicBody.
  destruct jsonRes as [e|[|] [[|[|c rest]]|e]]; simpl; try discriminate;
    try exact F.
  destruct (validateCenters (c :: rest) None) as [[]|e] eqn:V; simpl;
    [|discriminate].
  intros H; inversion H. right. exists (c :: rest).
  repeat split; auto. discriminate.
Qed.

(** X11. Whatever the two fetches bring, the public load touches nothing
    but the batch, and the batch after it is the batch before it or a
    non-empty batch the validator accepts without a bound. *)
Theorem public_load_installs_only_valid_batches
        (parseCSV : jsstring -> result (list Center)) (admin : bool)
        (jsonRes : Fetch Json) (csvRes : Fetch jsstring) (st : AppState) :
  query (loadPublic parseCSV admin jsonRes csvRes st) = query st
  /\ csvError (loadPublic parseCSV admin jsonRes csvRes st) = csvError st
  /\ activeTags (loadPublic parseCSV admin jsonRes csvRes st)
     = activeTags st
  /\ (centers (loadPublic parseCSV admin jsonRes csvRes st) = centers st
      \/ (admin = false
          /\ centers (loadPublic parseCSV admin jsonRes csvRes st) <> []
          /\ validateCenters
               (centers (loadPublic parseCSV admin jsonRes csvRes st)) None
             = Ok tt)).
Proof.
  unfold loadPublic. destruct admin; [auto|].
  destruct (loadPublicBody parseCSV jsonRes csvRes st) as [st'|e] eqn:E;
    [|auto].
  apply loadPublicBody_ok in E as [->|(batch & Hne & Hv & ->)]; [auto|].
  repeat split; auto.
Qed.



Lemma handler_keeps_invariant (st : AppState) (r : result (list Center)) :
  (forall parsed, r = Ok parsed ->
                  validateCenters parsed (Some TARGET_BOUNDS) = Ok tt) ->
  sessionInvariant true st ->
  sessionInvariant true
    match r with
    | Ok parsed => setCenters parsed (setCsvError None st)
    | Throw e => setCsvError (Some (surfaced e)) (setCsvError None st)
    end.
Proof.
  intros Hr (I1 & I2 & I3). destruct r as [parsed|e]; simpl.
  - specialize (Hr parsed eq_refl). apply validateCenters_ok_iff in Hr.
    repeat split; auto.
    eapply Forall_impl; [|exact Hr]. apply wellFormed_without_bound.
  - repeat split; auto.
Qed.

Lemma parseAndValidate_valid
      (parseCSV : jsstring -> result (list Center)) (text : jsstring)
      (parsed : list Center) :
  parseAndValidate parseCSV text = Ok parsed ->
  validateCenters parsed (Some TARGET_BOUNDS) = Ok tt.
Proof. intros H. apply parseAndValidate_ok in H. tauto. Qed.

Lemma loadPublic_keeps_invariant
      (parseCSV : jsstring -> result (list Center)) (admin : bool)
      (j : Fetch Json) (c : Fetch jsstring) (st : AppState) :
  sessionInvariant admin st ->
  sessionInvariant admin (loadPublic parseCSV admin j c st).
Proof.
  intros Inv. unfold loadPublic. destruct admin; [exact Inv|].
  destruct (loadPublicBody parseCSV j c st) as [st'|e] eqn:E; [|exact Inv].
  apply loadPublicBody_ok in E as [->|(batch & Hne & Hv & ->)]; [exact Inv|].
  destruct Inv as (I1 & I2 & I3). repeat split; auto.
  - simpl. apply validateCenters_ok_iff. exact Hv.
  - discriminate.
Qed.

Lemma step_keeps_invariant
      (parseCSV : jsstring -> result (list Center)) (admin : bool)
      (st : AppState) (ev : Event) :
  sessionInvariant admin st ->
  sessionInvariant admin (step parseCSV admin st ev).
Proof.
  intros Inv. destruct ev as [j c|text|file|q|t|]; simpl.
  - apply loadPublic_keeps_invariant. exact Inv.
  - destruct admin; [|exact Inv]. unfold onPasteCSV.
    apply handler_keeps_invariant; [|exact Inv].
    intros parsed. apply parseAndValidate_valid.
  - destruct admin; [|exact Inv]. unfold onUploadCSV.
    apply handler_keeps_invariant; [|exact Inv].
    destruct file as [text|e]; simpl; [|discriminate].
    intros parsed. apply parseAndValidate_valid.
  - exact Inv.
  - destruct Inv as (I1 & I2 & I3). repeat split; auto.
    simpl. apply toggleTag_NoDup. exact I1.
  - destruct Inv as (I1 & I2 & I3). repeat split; auto.
    simpl. constructor.
Qed.

(** X13. Through any session that starts from the empty state, whatever is
    pasted, uploaded, fetched, typed or toggled: the selection of tags has
    no duplicates, every record of the batch satisfies the invariants of a
    record, and in admin mode every record lies within the jurisdiction
    bound. *)
Theorem session_keeps_batch_valid
        (parseCSV : jsstring -> result (list Center)) (admin : bool)
        (evs : list Event) :
  sessionInvariant admin (run parseCSV admin evs emptyState).
Proof.
  unfold run.
  assert (G : forall st, sessionInvariant admin st ->
                         sessionInvariant admin
                           (fold_left (step parseCSV admin) evs st)).
  { induction evs as [|ev evs IH]; intros st Inv; simpl; [exact Inv|].
    apply IH. apply step_keeps_invariant. exact Inv. }
  apply G. repeat split; simpl; constructor.
Qed.

(* ================================================================== *)
(** * Flying to a record                                               *)
(* ================================================================== *)

Lemma SFcompare_some (x y : number) :
  isNaN x = false -> isNaN y = false -> exists o, SFcompare x y = Some o.
Proof.
  destruct x as [?|?| |? ? ?], y as [?|?| |? ? ?]; simpl; intros; eauto;
    discriminate.
Qed.

Lemma SFcompare_finite_refl (s : bool) (m : positive) (e : Z) :
  SFcompare (S754_finite s m e) (S754_finite s m e) = Some Eq.
Proof.
  simpl. rewrite Z.compare_refl.
  destruct s; rewrite Pos.compare_cont_refl; reflexivity.
Qed.

Lemma SFcompare_eq_finite_r (x : number) (s : bool) (m : positive) (e : Z) :
  SFcompare x (S754_finite s m e) = Some Eq -> x = S754_finite s m e.
Proof.
  destruct x as [?|[|]| |sx mx ex]; simpl;
    try (destruct s; discriminate); try discriminate.
  rewrite Pos.compare_cont_spec.
  destruct sx, s; try discriminate;
    destruct (Z.compare_spec ex e); try discriminate;
    destruct (Pos.compare_spec mx m); simpl; try discriminate;
    intros _; subst; reflexivity.
Qed.

Lemma SFcompare_eq_finite_l (x : number) (s : bool) (m : positive) (e : Z) :
  SFcompare (S754_finite s m e) x = Some Eq -> x = S754_finite s m e.
Proof.
  destruct x as [?|[|]| |sx mx ex]; simpl;
    try (destruct s; discriminate); try discriminate.
  rewrite Pos.compare_cont_spec.
  destruct sx, s; try discriminate;
    destruct (Z.compare_spec e ex); try discriminate;
    destruct (Pos.compare_spec m mx); simpl; try discriminate;
    intros _; subst; reflexivity.
Qed.

(** Clamping to an interval with finite, non-zero ends [lo < hi]. *)
Lemma clamp_between (sl sh : bool) (ml mh : positive) (el eh : Z)
      (v : number) :
  let lo := S754_finite sl ml el in
  let hi := S754_finite sh mh eh in
  SFcompare lo hi = Some Lt ->
  isNaN v = false ->
  between lo hi (clamp lo hi v)
  /\ (between lo hi v -> clamp lo hi v = v).
Proof.
  intros lo hi Hlt Hv.
  assert (Rlo : SFcompare lo lo = Some Eq) by apply SFcompare_finite_refl.
  assert (Rhi : SFcompare hi hi = Some Eq) by apply SFcompare_finite_refl.
  unfold between, clamp, le, SFleb.
  destruct (SFcompare_some v hi Hv eq_refl) as [o Ho].
  unfold mathMin. rewrite Hv. cbn [orb isNaN hi]. fold hi. rewrite Ho.
  assert (Hmax : forall w, isNaN w = false ->
            forall o', SFcompare lo w = Some o' ->
            mathMax lo w = match o' with Lt => w | _ => lo end).
  { intros w Hw o' Ho'. unfold mathMax. cbn [isNaN lo orb]. rewrite Hw.
    fold lo. rewrite Ho'. destruct o'; reflexivity. }
  destruct o.
  - (* v = hi *)
    apply SFcompare_eq_finite_r in Ho. subst v.
    cbv beta iota. fold hi.
    rewrite (Hmax hi eq_refl Lt Hlt). rewrite Hlt, Rhi. auto.
  - (* v < hi *)
    destruct (SFcompare_some lo v eq_refl Hv) as [o' Ho'].
    rewrite (Hmax v Hv o' Ho'). destruct o'.
    + apply SFcompare_eq_finite_l in Ho'. subst v.
      rewrite Rlo, Hlt. auto.
    + rewrite Ho', Ho. auto.
    + rewrite Rlo, Hlt. split; [auto|]. rewrite Ho'. intros [H _].
      discriminate.
  - (* v > hi *)
    rewrite (Hmax hi eq_refl Lt Hlt). rewrite Hlt, Rhi. split; [auto|].
    intros [_ H]. discriminate.
Qed.

(** X14. The point the map flies to is always inside the jurisdiction
    bound: for coordinates that are not NaN, the longitude and the latitude
    handed to the map lie within the bound, and coordinates already within
    the bound are handed over unchanged. *)
Theorem flyToCenter_stays_in_bounds (lng lat : number) :
  isNaN lng = false -> isNaN lat = false ->
  between (getWest TARGET_BOUNDS) (getEast TARGET_BOUNDS)
          (fst (flyToCenter lng lat))
  /\ between (getSouth TARGET_BOUNDS) (getNorth TARGET_BOUNDS)
             (snd (flyToCenter lng lat))
  /\ (between (getWest TARGET_BOUNDS) (getEast TARGET_BOUNDS) lng ->
      fst (flyToCenter lng lat) = lng)
  /\ (between (getSouth TARGET_BOUNDS) (getNorth TARGET_BOUNDS) lat ->
      snd (flyToCenter lng lat) = lat).
Proof.
  intros Hlng Hlat.
  pose proof (clamp_between false false 8934015760796221 8949496884515308
                (-46) (-46) lng eq_refl Hlng) as [A1 A2].
  pose proof (clamp_between false false 5267804189139927 5290322187276780
                (-47) (-47) lat eq_refl Hlat) as [B1 B2].
  repeat split; first [apply A1 | apply A2 | apply B1 | apply B2];
    assumption.
Qed.

Lemma flyToCenter_stays_in_bounds_witness :
  between (getSouth TARGET_BOUNDS) (getNorth TARGET_BOUNDS)
          (snd (flyToCenter (S754_infinity false) (ofDecimal false 200 0))).
Proof.
  apply (flyToCenter_stays_in_bounds
           (S754_infinity false) (ofDecimal false 200 0));
    vm_compute; reflexivity.
Defined.

(* ================================================================== *)
(** * Smoke tests                                                      *)
(* ================================================================== *)

Lemma forEach_all_ok {A} (f : A -> result unit) (l : list A) :
  (forall i, In i l -> f i = Ok tt) -> forEach f l = Ok tt.
Proof.
  induction l as [|x l IH]; intros H; simpl; [reflexivity|].
  rewrite (H x (or_introl eq_refl)). simpl. apply IH.
  intros i Hi. apply H. right; exact Hi.
Qed.

Lemma forEach_first_throw {A} (f : A -> result unit) (pre post : list A)
      (i : A) (e : exn) :
  (forall j, In j pre -> f j = Ok tt) -> f i = Throw e ->
  forEach f (pre ++ i :: post) = Throw e.
Proof.
  induction pre as [|x pre IH]; intros H Hi; simpl.
  - rewrite Hi. reflexivity.
  - rewrite (H x (or_introl eq_refl)). simpl. apply IH; [|exact Hi].
    intros j Hj. apply H. right; exact Hj.
Qed.

Lemma forEach_ok_inv {A} (f : A -> result unit) (l : list A) :
  forEach f l = Ok tt -> forall i, In i l -> f i = Ok tt.
Proof.
  induction l as [|x l IH]; simpl; intros H i Hi; [destruct Hi|].
  destruct (f x) as [[]|e] eqn:E; simpl in H; [|discriminate].
  destruct Hi as [<-|Hi]; [exact E | apply IH; assumption].
Qed.

(** X15. The smoke tests pass exactly when the style has glyphs and the
    map has all six layers; without glyphs they fail on the glyphs,
    otherwise on the first missing layer in the order clusters,
    cluster-count, unclustered, labels, outside-mask, region-outline. *)
Theorem runSmokeTests_reports_first_missing (m : MapView) :
  (runSmokeTests m = Ok tt
   <-> glyphs m = true /\ forall i, In i smokeLayers -> In i (layerIds m))
  /\ (glyphs m = false ->
      runSmokeTests m = Throw (Error (lit "Test failed: " +++ glyphsMessage)))
  /\ (forall pre i post,
        glyphs m = true ->
        smokeLayers = pre ++ i :: post ->
        (forall j, In j pre -> In j (layerIds m)) ->
        ~ In i (layerIds m) ->
        runSmokeTests m
        = Throw (Error (lit "Test failed: " +++ lit "layer not found: "
                        +++ i))).
Proof.
  set (check := fun i => assert (getLayer m i) (lit "layer not found: " +++ i)).
  assert (G : runSmokeTests m
              = if glyphs m then forEach check smokeLayers
                else Throw (Error (lit "Test failed: " +++ glyphsMessage))).
  { unfold runSmokeTests. destruct (glyphs m); reflexivity. }
  rewrite G. split; [|split].
  - destruct (glyphs m).
    + split.
      * intros H. split; [reflexivity|]. intros i Hi.
        pose proof (forEach_ok_inv check smokeLayers H i Hi) as Hok.
        apply assert_ok in Hok. apply arrIncludes_In. exact Hok.
      * intros [_ H]. apply forEach_all_ok. intros i Hi.
        apply assert_ok. apply arrIncludes_In. auto.
    + split; [discriminate | intros [H _]; discriminate].
  - intros ->. reflexivity.
  - intros pre i post -> -> Hpre Hi.
    apply forEach_first_throw.
    + intros j Hj. apply assert_ok. apply arrIncludes_In. auto.
    + unfold check, assert, getLayer.
      assert (E : arrIncludes (layerIds m) i = false).
      { apply not_true_is_false. intros H. apply arrIncludes_In in H. auto. }
      rewrite E. reflexivity.
Qed.

Lemma runSmokeTests_reports_first_missing_witness :
  runSmokeTests {| glyphs := true;
                   layerIds := [lit "clusters"; lit "cluster-count"] |}
  = Throw (Error (lit "Test failed: " +++ lit "layer not found: "
                  +++ lit "unclustered")).
Proof.
  apply (proj2 (proj2 (runSmokeTests_reports_first_missing _))
               [lit "clusters"; lit "cluster-count"] (lit "unclustered")
               [lit "labels"; lit "outside-mask"; lit "region-outline"]).
  - reflexivity.
  - reflexivity.
  - intros j [<-|[<-|[]]]; simpl; auto.
  - vm_compute. intros [E|[E|[]]]; discriminate.
Defined.

(* ================================================================== *)
(** * The build script                                                 *)
(* ================================================================== *)

Lemma splitBy_replacePipes (s : jsstring) :
  splitBy isSemiOrComma (replacePipes s) = splitBy isTagSep s.
Proof.
  induction s as [|c s IH]; [reflexivity|].
  cbn [replacePipes map]. fold (replacePipes s).
  rewrite !splitBy_cons, IH.
  unfold isSemiOrComma, isTagSep.
  destruct (c =? PIPE)%N eqn:P.
  - apply N.eqb_eq in P. subst c. reflexivity.
  - rewrite orb_false_r. reflexivity.
Qed.

(** X16. The build script and the parsers read a tags cell alike: the tag
    list the script writes for a cell is the tag list either parser builds
    from the same cell, and a row without a tags key gets no tag. *)
Theorem normTags_agrees_with_parsers (cell : jsstring) :
  normTags (Some cell) = CommaParser.parseTags cell
  /\ normTags (Some cell) = QuoteParser.parseTags cell
  /\ normTags None = [].
Proof.
  assert (E : normTags (Some cell) = QuoteParser.parseTags cell).
  { unfold normTags, QuoteParser.parseTags.
    rewrite splitBy_replacePipes. reflexivity. }
  split; [rewrite E; apply parseTags_same|]. split; [exact E | reflexivity].
Qed.

(* ================================================================== *)
(** * What quoting does in the quote-aware parser                      *)
(* ================================================================== *)

Lemma not_in_snoc (c : codeunit) (s : jsstring) (x : codeunit) :
  ~ In c s -> x <> c -> ~ In c (s ++ [x]).
Proof.
  intros H1 H2 H. apply in_app_or in H as [H|[H|[]]]; auto.
Qed.

(** Without a doubled quote in the text, the record scan never puts a
    quote into a row. *)
Lemma scanRows_no_quote (text : jsstring) :
  forall cur inQ rows,
  hasDoubledQuote text = false ->
  ~ In QUOTE cur ->
  (forall r, In r rows -> ~ In QUOTE r) ->
  (forall r, In r (fst (QuoteParser.scanRows text cur inQ rows)) ->
             ~ In QUOTE r)
  /\ ~ In QUOTE (snd (QuoteParser.scanRows text cur inQ rows)).
Proof.
  induction text as [|ch rest IH]; intros cur inQ rows Hd Hcur Hrows.
  - simpl. auto.
  - cbn [hasDoubledQuote] in Hd. apply orb_false_iff in Hd as [Hd1 Hd2].
    cbn [QuoteParser.scanRows].
    destruct (ch =? QUOTE)%N eqn:Q.
    + simpl in Hd1. destruct rest as [|next rest'].
      * apply IH; assumption.
      * rewrite Hd1. apply IH; assumption.
    + assert (Hch : ch <> QUOTE) by (apply N.eqb_neq; exact Q).
      destruct ((ch =? LF)%N && negb inQ).
      * apply IH; [assumption | intros [] |].
        intros r Hr. apply in_app_or in Hr as [Hr|[<-|[]]]; auto.
      * apply IH; [assumption | | assumption].
        apply not_in_snoc; assumption.
Qed.

Lemma rowsOf_no_quote (text r : jsstring) :
  hasDoubledQuote text = false -> In r (QuoteParser.rowsOf text) ->
  ~ In QUOTE r.
Proof.
  intros Hd. unfold QuoteParser.rowsOf.
  match goal with
  | |- context [QuoteParser.scanRows text ?c false ?rs] =>
    destruct (scanRows_no_quote text c false rs Hd (fun H => H)
                (fun x H => match H with end)) as [H1 H2];
    destruct (QuoteParser.scanRows text c false rs) as [rows cur]
  end.
  simpl in H1, H2. destruct (0 <? _)%nat; [|apply H1].
  intros Hr. apply in_app_or in Hr as [Hr|[<-|[]]]; auto.
Qed.

(** X17. Quotes do not protect commas.  When the text holds no doubled
    quote, no row the quote-aware parser scans holds a quote, so each row
    is cut at every one of its commas: its cells are the trimmed pieces
    between the commas, and no cell holds a comma or a quote. *)
Theorem quotes_do_not_protect_commas (text r : jsstring) :
  hasDoubledQuote text = false ->
  In r (QuoteParser.rowsOf text) ->
  QuoteParser.splitRow r = map trim (splitBy isComma r)
  /\ forall cell, In cell (QuoteParser.splitRow r) ->
                  ~ In COMMA cell /\ ~ In QUOTE cell.
Proof.
  intros Hd Hr.
  pose proof (rowsOf_no_quote text r Hd Hr) as Hq.
  pose proof (splitRow_plain r Hq) as E.
  split; [exact E|]. rewrite E.
  intros cell Hc. apply in_map_iff in Hc as (p & <- & Hp). split.
  - intros H. apply trim_In in H.
    pose proof (splitBy_no_sep isComma r p COMMA Hp H) as F.
    vm_compute in F. discriminate.
  - intros H. apply trim_In in H. apply Hq.
    eapply splitBy_In; eauto.
Qed.

Lemma quotes_do_not_protect_commas_witness :
  QuoteParser.splitRow
    (lit "c1,Hall, East,37.50,127.05,Gate 2" +++ [LF] +++ lit "3rd floor")
  = map trim (splitBy isComma
      (lit "c1,Hall, East,37.50,127.05,Gate 2" +++ [LF] +++ lit "3rd floor")).
Proof.
  apply (quotes_do_not_protect_commas quotedText).
  - vm_compute; reflexivity.
  - vm_compute. right; left; reflexivity.
Defined.

(** The scan over text without a quote, inside a quoted cell: every code
    unit, line feeds included, joins the current row. *)
Lemma scanRows_inside (b : jsstring) :
  forall rest cur rows,
  ~ In QUOTE b ->
  QuoteParser.scanRows (b ++ rest) cur true rows
  = QuoteParser.scanRows rest (cur ++ b) true rows.
Proof.
  induction b as [|ch b IH]; intros rest cur rows Hq.
  - simpl. rewrite app_nil_r. reflexivity.
  - apply not_quote in Hq as [Hch Hb].
    cbn [app QuoteParser.scanRows]. rewrite Hch.
    rewrite andb_false_r. rewrite (IH _ _ _ Hb), <- app_assoc. reflexivity.
Qed.

(** The scan over text without a quote or a line feed, outside quotes. *)
Lemma scanRows_outside (a : jsstring) :
  forall rest cur rows,
  ~ In QUOTE a -> ~ In LF a ->
  QuoteParser.scanRows (a ++ rest) cur false rows
  = QuoteParser.scanRows rest (cur ++ a) false rows.
Proof.
  induction a as [|ch a IH]; intros rest cur rows Hq Hl.
  - simpl. rewrite app_nil_r. reflexivity.
  - apply not_quote in Hq as [Hch Ha].
    assert (E : (ch =? LF)%N = false).
    { apply N.eqb_neq. intros ->. apply Hl. left; reflexivity. }
    cbn [app QuoteParser.scanRows]. rewrite Hch, E. cbn [andb].
    rewrite IH, <- app_assoc; auto.
    intros H. apply Hl. right; exact H.
Qed.

(** A quote that is not followed by a quote toggles the quoted state. *)
Lemma scanRows_toggle (rest cur : jsstring) (q : bool)
      (rows : list jsstring) :
  match rest with d :: _ => (d =? QUOTE)%N | [] => false end = false ->
  QuoteParser.scanRows (QUOTE :: rest) cur q rows
  = QuoteParser.scanRows rest cur (negb q) rows.
Proof.
  intros H. cbn [QuoteParser.scanRows]. rewrite N.eqb_refl.
  destruct rest as [|d rest']; [reflexivity|]. rewrite H. reflexivity.
Qed.

Lemma head_not_quote (s rest : jsstring) :
  ~ In QUOTE s -> s <> [] ->
  match s ++ rest with d :: _ => (d =? QUOTE)%N | [] => false end = false.
Proof.
  destruct s as [|x s]; [congruence|]. intros H _.
  apply not_quote in H as [H _]. exact H.
Qed.

(** X18. A quoted cell may span lines.  In a text a, quote, b, quote, c
    where a, b, c hold no quote, b is not empty and a and c hold no line
    feed, the line feeds of b do not end the row: the scan yields the one
    row a b c (no row when that is blank). *)
Theorem quoted_line_feed_stays_in_row (a b c : jsstring) :
  ~ In QUOTE a -> ~ In QUOTE b -> ~ In QUOTE c ->
  ~ In LF a -> ~ In LF c -> b <> [] ->
  QuoteParser.rowsOf (a ++ [QUOTE] ++ b ++ [QUOTE] ++ c)
  = keptLast (a ++ b ++ c).
Proof.
  intros Ha Hb Hc La Lc Hne. unfold QuoteParser.rowsOf.
  rewrite (scanRows_outside a _ [] [] Ha La).
  cbn [app]. rewrite scanRows_toggle by (apply head_not_quote; assumption).
  cbn [negb]. rewrite (scanRows_inside b _ _ _ Hb).
  rewrite scanRows_toggle.
  2:{ destruct c as [|y c']; [reflexivity|].
      apply not_quote in Hc as [Hy _]. exact Hy. }
  cbn [negb]. rewrite <- (app_nil_r c) at 1.
  rewrite (scanRows_outside c [] _ [] Hc Lc).
  cbn [QuoteParser.scanRows]. rewrite <- !app_assoc.
  unfold keptLast, CommaParser.nonBlank.
  destruct (0 <? _)%nat; reflexivity.
Qed.

Lemma quoted_line_feed_stays_in_row_witness :
  QuoteParser.rowsOf (lit "c1," ++ [QUOTE] ++ (lit "Gate 2" +++ [LF]
                      +++ lit "3rd floor") ++ [QUOTE] ++ lit ",x")
  = [lit "c1,Gate 2" +++ [LF] +++ lit "3rd floor,x"].
Proof.
  refine (quoted_line_feed_stays_in_row (lit "c1,")
            (lit "Gate 2" +++ [LF] +++ lit "3rd floor") (lit ",x")
            _ _ _ _ _ _);
    try (apply noQuote_sound; vm_compute; reflexivity);
    try discriminate;
    vm_compute; intuition discriminate.
Defined.

(* ================================================================== *)
(** * Line endings                                                     *)
(* ================================================================== *)

Lemma dropWhile_app_nil (p : codeunit -> bool) (s t : jsstring) :
  dropWhile p s = [] -> dropWhile p (s ++ t) = dropWhile p t.
Proof.
  induction s as [|x s IH]; simpl; [reflexivity|].
  destruct (p x); [exact IH | discriminate].
Qed.

Lemma dropWhile_app_cons (p : codeunit -> bool) (s t : jsstring) :
  dropWhile p s <> [] -> dropWhile p (s ++ t) = dropWhile p s ++ t.
Proof.
  induction s as [|x s IH]; simpl; [congruence|].
  destruct (p x); [exact IH | reflexivity].
Qed.

Lemma trimEnd_snoc (s : jsstring) (c : codeunit) :
  isWhiteSpace c = true -> trimEnd (s ++ [c]) = trimEnd s.
Proof.
  intros H. unfold trimEnd. rewrite rev_app_distr. simpl. rewrite H.
  reflexivity.
Qed.

Lemma trim_snoc (s : jsstring) (c : codeunit) :
  isWhiteSpace c = true -> trim (s ++ [c]) = trim s.
Proof.
  intros H. unfold trim, trimStart.
  destruct (dropWhile isWhiteSpace s) as [|x t] eqn:E.
  - rewrite (dropWhile_app_nil _ _ _ E). simpl. rewrite H. reflexivity.
  - rewrite dropWhile_app_cons by (rewrite E; discriminate).
    rewrite E. apply trimEnd_snoc. exact H.
Qed.

Lemma sameUpToCR_trim (a b : jsstring) : sameUpToCR a b -> trim a = trim b.
Proof.
  intros [->| ->]; [reflexivity|]. apply trim_snoc. reflexivity.
Qed.

Lemma sameUpToCR_cons (c : codeunit) (a b : jsstring) :
  sameUpToCR a b -> sameUpToCR (c :: a) (c :: b).
Proof. intros [->| ->]; [left | right]; reflexivity. Qed.

Lemma Forall2_hd_tl (l m : list jsstring) :
  l <> [] -> m <> [] -> Forall2 sameUpToCR l m ->
  sameUpToCR (hd [] l) (hd [] m) /\ Forall2 sameUpToCR (tl l) (tl m).
Proof.
  intros Hl Hm H. destruct H; [congruence|]. simpl. auto.
Qed.

Lemma splitLines_cons (c : codeunit) (s : jsstring) :
  splitLines (c :: s) =
  if (c =? LF)%N then [] :: splitLines s
  else if (c =? CR)%N && startsLF s then splitLines s
  else (c :: hd [] (splitLines s)) :: tl (splitLines s).
Proof.
  cbn [splitLines]. destruct (c =? LF)%N; [reflexivity|].
  destruct ((c =? CR)%N && startsLF s); [reflexivity|].
  destruct (splitLines s); reflexivity.
Qed.

Lemma splitLines_nonempty (s : jsstring) : splitLines s <> [].
Proof.
  induction s as [|c s IH]; [discriminate|].
  rewrite splitLines_cons.
  destruct (c =? LF)%N; [discriminate|].
  destruct ((c =? CR)%N && startsLF s); [exact IH | discriminate].
Qed.

(** The lines the comma-splitting parser sees are the pieces between the
    line feeds, each without the carriage return that ended it. *)
Lemma splitLines_up_to_CR (text : jsstring) :
  Forall2 sameUpToCR (splitBy isLF text) (splitLines text).
Proof.
  induction text as [|c s IH].
  - repeat constructor.
  - rewrite splitBy_cons, splitLines_cons. change (isLF c) with (c =? LF)%N.
    pose proof (splitBy_nonempty isLF s) as N1.
    pose proof (splitLines_nonempty s) as N2.
    destruct (Forall2_hd_tl _ _ N1 N2 IH) as [Hh Ht].
    destruct (c =? LF)%N eqn:L.
    + constructor; [left; reflexivity | exact IH].
    + destruct ((c =? CR)%N && startsLF s) eqn:B.
      * apply andb_true_iff in B as [B1 B2]. apply N.eqb_eq in B1. subst c.
        destruct s as [|d s']; [discriminate|]. simpl in B2.
        apply N.eqb_eq in B2. subst d.
        rewrite splitBy_cons, splitLines_cons in *. simpl in *.
        inversion IH; subst.
        constructor; [right; reflexivity | assumption].
      * constructor; [apply sameUpToCR_cons; exact Hh | exact Ht].
Qed.

Lemma splitBy_snoc_CR (sep : codeunit -> bool) (s : jsstring) :
  sep CR = false ->
  Forall2 sameUpToCR (splitBy sep (s ++ [CR])) (splitBy sep s).
Proof.
  intros H. induction s as [|x s IH].
  - simpl. rewrite H. constructor; [right; reflexivity | constructor].
  - cbn [app]. rewrite !splitBy_cons.
    destruct (Forall2_hd_tl _ _ (splitBy_nonempty sep (s ++ [CR]))
                (splitBy_nonempty sep s) IH) as [Hh Ht].
    destruct (sep x).
    + constructor; [left; reflexivity | exact IH].
    + constructor; [apply sameUpToCR_cons; exact Hh | exact Ht].
Qed.

Lemma Forall2_trim (l m : list jsstring) :
  Forall2 sameUpToCR l m -> map trim l = map trim m.
Proof.
  induction 1 as [|a b l m H _ IH]; simpl; [reflexivity|].
  rewrite (sameUpToCR_trim _ _ H), IH. reflexivity.
Qed.

Lemma sameUpToCR_cells (a b : jsstring) :
  sameUpToCR a b ->
  map trim (splitBy isComma a) = map trim (splitBy isComma b).
Proof.
  intros [->| ->]; [reflexivity|].
  apply Forall2_trim. apply splitBy_snoc_CR. reflexivity.
Qed.

Lemma comma_record_cells (cols : Columns) (cells : list jsstring) :
  CommaParser.record cols cells = QuoteParser.record cols (map trim cells).
Proof.
  unfold QuoteParser.record, CommaParser.record.
  rewrite !val_trimmed, parseTags_same. reflexivity.
Qed.

Lemma sameUpToCR_record (cols : Columns) (a b : jsstring) :
  sameUpToCR a b ->
  CommaParser.record cols (splitBy isComma a)
  = CommaParser.record cols (splitBy isComma b).
Proof.
  intros H. rewrite !comma_record_cells, (sameUpToCR_cells _ _ H).
  reflexivity.
Qed.

Lemma sameUpToCR_nonBlank (a b : jsstring) :
  sameUpToCR a b -> CommaParser.nonBlank a = CommaParser.nonBlank b.
Proof.
  intros H. unfold CommaParser.nonBlank. rewrite (sameUpToCR_trim _ _ H).
  reflexivity.
Qed.

Lemma Forall2_filter_nonBlank (l m : list jsstring) :
  Forall2 sameUpToCR l m ->
  Forall2 sameUpToCR (filter CommaParser.nonBlank l)
                     (filter CommaParser.nonBlank m).
Proof.
  induction 1 as [|a b l m H _ IH]; simpl; [constructor|].
  rewrite (sameUpToCR_nonBlank _ _ H).
  destruct (CommaParser.nonBlank b); [constructor; assumption | exact IH].
Qed.

Lemma Forall2_records (cols : Columns) (l m : list jsstring) :
  Forall2 sameUpToCR l m ->
  map (fun r => CommaParser.record cols (splitBy isComma r)) l
  = map (fun r => CommaParser.record cols (splitBy isComma r)) m.
Proof.
  induction 1 as [|a b l m H _ IH]; simpl; [reflexivity|].
  rewrite (sameUpToCR_record cols _ _ H), IH. reflexivity.
Qed.

(** The parse depends on the non-blank lines only up to a carriage return
    at the end of each. *)
Lemma parseLines_up_to_CR (toLowerCase : jsstring -> jsstring)
      (l m : list jsstring) :
  Forall2 sameUpToCR l m ->
  parseLines toLowerCase (filter CommaParser.nonBlank l)
  = parseLines toLowerCase (filter CommaParser.nonBlank m).
Proof.
  intros H. apply Forall2_filter_nonBlank in H.
  pose proof (filter_Forall CommaParser.nonBlank l) as Fl.
  pose proof (filter_Forall CommaParser.nonBlank m) as Fm.
  destruct H as [|a b l' m' Hab Hrest]; [reflexivity|].
  unfold parseLines. cbv zeta.
  rewrite (sameUpToCR_cells _ _ Hab).
  destruct (requiredPresent _); simpl; [|reflexivity].
  inversion Fl; inversion Fm; subst.
  rewrite !comma_rowsLoop_nonBlank by assumption. simpl.
  f_equal. apply Forall2_records. exact Hrest.
Qed.

Lemma splitLines_dropBreakCR (text : jsstring) :
  splitLines text = splitBy isLF (dropBreakCR text).
Proof.
  induction text as [|c s IH]; [reflexivity|].
  rewrite splitLines_cons. cbn [dropBreakCR].
  destruct (c =? LF)%N eqn:L.
  - apply N.eqb_eq in L. subst c. simpl. rewrite IH. reflexivity.
  - destruct ((c =? CR)%N && startsLF s); [exact IH|].
    rewrite splitBy_cons. change (isLF c) with (c =? LF)%N.
    rewrite L, IH. reflexivity.
Qed.

(** X19. Line endings do not matter to the comma-splitting parser: a text
    and the same text with every CR LF turned into LF parse to the same
    result. *)
Theorem comma_parser_ignores_CR_before_LF
        (toLowerCase : jsstring -> jsstring) (text : jsstring) :
  CommaParser.parseCSV toLowerCase text
  = CommaParser.parseCSV toLowerCase (dropBreakCR text).
Proof.
  change (parseLines toLowerCase
            (filter CommaParser.nonBlank (splitLines text))
          = parseLines toLowerCase
              (filter CommaParser.nonBlank (splitLines (dropBreakCR text)))).
  rewrite (splitLines_dropBreakCR text).
  apply parseLines_up_to_CR. apply splitLines_up_to_CR.
Qed.

(** X20. On every text that holds no double quote and whose first line is
    not blank, the two parsers return the same result, whether its lines
    end in LF or in CR LF. *)
Theorem parsers_agree_whatever_the_line_endings
        (toLowerCase : jsstring -> jsstring) (text : jsstring) :
  ~ In QUOTE text -> trim (firstLine text) <> [] ->
  CommaParser.parseCSV toLowerCase text
  = QuoteParser.parseCSV toLowerCase text.
Proof.
  intros Hq Hfl.
  destruct (rowsOf_plain_first _ Hq Hfl) as (rest & Hrows & Hlines & Hin).
  transitivity (parseLines toLowerCase
                  (filter CommaParser.nonBlank (splitBy isLF text))).
  - symmetry. apply (parseLines_up_to_CR toLowerCase).
    apply splitLines_up_to_CR.
  - rewrite Hlines. unfold QuoteParser.parseCSV, parseLines.
    rewrite Hrows. cbv zeta.
    fold (headerNames toLowerCase (firstLine text)).
    rewrite columns_same.
    destruct (requiredPresent _); simpl; [|reflexivity].
    f_equal. rewrite quoted_rowsLoop_filter.
    rewrite comma_rowsLoop_nonBlank by apply filter_Forall.
    simpl. apply map_ext_in. intros r Hr. symmetry. apply record_plain.
    apply filter_In in Hr as [Hr _]. intros Hc.
    apply Hq. eapply splitBy_In; eauto.
Qed.

Lemma parsers_agree_whatever_the_line_endings_witness :
  CommaParser.parseCSV asciiLower
    (lit "id,name,lat,lng" +++ [CR; LF] +++ lit "c1,A,37.5,127.05" +++ [CR; LF])
  = QuoteParser.parseCSV asciiLower
    (lit "id,name,lat,lng" +++ [CR; LF] +++ lit "c1,A,37.5,127.05" +++ [CR; LF]).
Proof.
  apply parsers_agree_whatever_the_line_endings.
  - apply noQuote_sound. vm_compute; reflexivity.
  - vm_compute. discriminate.
Defined.

(* ================================================================== *)
(** * Edges of the parsers                                             *)
(* ================================================================== *)

Lemma splitBy_two (sep : codeunit -> bool) (s : jsstring) (c : codeunit) :
  In c s -> sep c = true -> (2 <= List.length (splitBy sep s))%nat.
Proof.
  induction s as [|x s IH]; intros Hin Hc; [destruct Hin|].
  rewrite splitBy_cons.
  pose proof (splitBy_nonempty sep s) as Hne.
  destruct (sep x) eqn:E.
  - simpl. destruct (splitBy sep s); [congruence | simpl; lia].
  - destruct Hin as [->|Hin]; [congruence|].
    specialize (IH Hin Hc). simpl.
    destruct (splitBy sep s) as [|p [|q ps]]; simpl in *; lia.
Qed.

Lemma removelast_nil_single {A} (l : list A) :
  l <> [] -> removelast l = [] -> List.length l = 1%nat.
Proof.
  destruct l as [|x [|y l]]; simpl; intros; try congruence; discriminate.
Qed.

Lemma rowsOf_plain_nil (text : jsstring) :
  ~ In QUOTE text ->
  (QuoteParser.rowsOf text = [] <-> ~ In LF text /\ trim text = []).
Proof.
  intros Hq. rewrite (rowsOf_plain text Hq).
  pose proof (splitBy_nonempty isLF text) as Hne. split.
  - intros H. apply app_eq_nil in H as [H1 H2].
    pose proof (removelast_nil_single _ Hne H1) as L1.
    pose proof (splitBy_single isLF text L1) as E. split.
    + intros Hlf. pose proof (splitBy_two isLF text LF Hlf eq_refl). lia.
    + rewrite E in H2. simpl in H2. unfold keptLast in H2.
      destruct (CommaParser.nonBlank text) eqn:N; [discriminate|].
      unfold CommaParser.nonBlank in N.
      destruct (trim text); [reflexivity | discriminate].
  - intros [Hlf Hb].
    assert (E : splitBy isLF text = [text]).
    { apply splitBy_single.
      destruct (splitBy isLF text) as [|p [|q ps]] eqn:S; [congruence|auto|].
      exfalso.
      assert (Hp : In p (splitBy isLF text)) by (rewrite S; left; auto).
      clear Hp. revert S. clear -Hlf.
      revert p q ps. induction text as [|x s IH]; intros p q ps;
        [discriminate|].
      rewrite splitBy_cons. change (isLF x) with (x =? LF)%N.
      destruct (x =? LF)%N eqn:L.
      - apply N.eqb_eq in L. subst x. exfalso. apply Hlf. left; auto.
      - intros S. inversion S as [[S1 S2]].
        destruct (splitBy isLF s) as [|p' [|q' ps']] eqn:S';
          simpl in S2; try discriminate.
        eapply IH; [|reflexivity]. intros H; apply Hlf; right; exact H. }
    rewrite E. simpl. unfold keptLast, CommaParser.nonBlank. rewrite Hb.
    reflexivity.
Qed.

(** X21. When the quote-aware parser crashes.  On a text without a quote,
    it throws the TypeError exactly when the text holds no line feed and is
    blank; the comma-splitting parser returns the empty list on every such
    text. *)
Theorem quoted_parser_crashes_on_blank_line
        (toLowerCase : jsstring -> jsstring) (text : jsstring) :
  ~ In QUOTE text ->
  (QuoteParser.parseCSV toLowerCase text = Throw QuoteParser.undefinedSplit
   <-> ~ In LF text /\ trim text = [])
  /\ (~ In LF text /\ trim text = [] ->
      CommaParser.parseCSV toLowerCase text = Ok []).
Proof.
  intros Hq. split.
  - rewrite <- (rowsOf_plain_nil text Hq). unfold QuoteParser.parseCSV.
    destruct (QuoteParser.rowsOf text) as [|r0 rows].
    + split; reflexivity.
    + cbv zeta. destruct (requiredPresent _); simpl;
        split; intros H; discriminate.
  - intros [Hlf Hb].
    pose proof (splitLines_up_to_CR text) as F.
    assert (E : splitBy isLF text = [text]).
    { apply splitBy_single.
      pose proof (proj2 (rowsOf_plain_nil text Hq) (conj Hlf Hb)) as R.
      rewrite (rowsOf_plain text Hq) in R.
      apply app_eq_nil in R as [R _].
      apply removelast_nil_single; [apply splitBy_nonempty | exact R]. }
    rewrite E in F. inversion F as [|a b l m Hab Hrest]; subst.
    inversion Hrest; subst.
    unfold CommaParser.parseCSV.
    match goal with H : _ = splitLines text |- _ => rewrite <- H end.
    simpl. rewrite <- (sameUpToCR_nonBlank _ _ Hab).
    unfold CommaParser.nonBlank. rewrite Hb. reflexivity.
Qed.

Lemma quoted_parser_crashes_on_blank_line_witness :
  QuoteParser.parseCSV asciiLower (lit "   ")
  = Throw QuoteParser.undefinedSplit.
Proof.
  apply (quoted_parser_crashes_on_blank_line asciiLower (lit "   ")).
  - apply noQuote_sound. vm_compute; reflexivity.
  - split; [|vm_compute; reflexivity].
    vm_compute. intros [E|[E|[E|[]]]]; discriminate.
Defined.

(** X22. Every message shown after a paste that fails with the
    comma-splitting parser is the message of an assertion: it starts with
    the words Test failed. *)
Theorem comma_failure_message_is_assertion
        (toLowerCase : jsstring -> jsstring) (text : jsstring) (e : exn)
        (st : AppState) :
  parseAndValidate (CommaParser.parseCSV toLowerCase) text = Throw e ->
  exists msg,
    csvError (onPasteCSV (CommaParser.parseCSV toLowerCase) text st)
    = Some (lit "Test failed: " +++ msg).
Proof.
  intros H. unfold onPasteCSV. rewrite H. simpl csvError.
  apply parseAndValidate_throw in H as [H|(parsed & _ & H)].
  - apply comma_only_header_failure in H. subst e.
    exists headerMessage. reflexivity.
  - apply validateCenters_first_violation in H
      as (_ & _ & _ & msg & _ & _ & _ & _ & ->).
    exists msg. reflexivity.
Qed.

Lemma comma_failure_message_is_assertion_witness :
  exists msg,
    csvError (onPasteCSV (CommaParser.parseCSV asciiLower) noLngText
                         emptyState)
    = Some (lit "Test failed: " +++ msg).
Proof.
  eapply (comma_failure_message_is_assertion asciiLower noLngText).
  vm_compute; reflexivity.
Defined.

Lemma findIndexFrom_bound {A} (p : A -> bool) (l : list A) :
  forall i, (findIndexFrom p i l < i + Z.of_nat (List.length l))%Z
            \/ findIndexFrom p i l = (-1)%Z.
Proof.
  induction l as [|x l IH]; intros i; simpl; [auto|].
  destruct (p x); [left; lia|].
  destruct (IH (i + 1)%Z) as [H|H]; [left; lia | auto].
Qed.

Lemma get_surplus (cells extra : list jsstring) (i : Z) :
  (i < Z.of_nat (List.length cells))%Z ->
  CommaParser.get (cells ++ extra) i = CommaParser.get cells i.
Proof.
  intros H. unfold CommaParser.get, at_.
  destruct (0 <=? i)%Z eqn:E; [|reflexivity].
  apply Z.leb_le in E. rewrite nth_error_app1 by lia. reflexivity.
Qed.

Lemma idx_bound (toLowerCase : jsstring -> jsstring)
      (header : list jsstring) (k : jsstring) :
  (CommaParser.idx toLowerCase header k < Z.of_nat (List.length header))%Z.
Proof.
  unfold CommaParser.idx, findIndex.
  destruct (findIndexFrom_bound (fun h => eqb (toLowerCase h) k) header 0)
    as [H|H]; lia.
Qed.

(** X23. Cells beyond the header are ignored: the record the
    comma-splitting parser builds from a row with at least as many cells as
    the header has columns does not depend on the cells that follow. *)
Theorem surplus_cells_are_ignored
        (toLowerCase : jsstring -> jsstring) (hrow : jsstring)
        (cells extra : list jsstring) :
  (List.length (splitBy isComma hrow) <= List.length cells)%nat ->
  CommaParser.record (columnsOf toLowerCase hrow) (cells ++ extra)
  = CommaParser.record (columnsOf toLowerCase hrow) cells.
Proof.
  intros Hlen.
  assert (B : forall k,
            (CommaParser.idx toLowerCase (map trim (splitBy isComma hrow)) k
             < Z.of_nat (List.length cells))%Z).
  { intros k.
    pose proof (idx_bound toLowerCase (map trim (splitBy isComma hrow)) k)
      as H. rewrite length_map in H. lia. }
  unfold CommaParser.record, columnsOf, CommaParser.columns.
  cbn [idI nameI addrI latI lngI phoneI hoursI noteI tagsI].
  rewrite !get_surplus by apply B. reflexivity.
Qed.

Lemma surplus_cells_are_ignored_witness :
  tags (CommaParser.record (columnsOf asciiLower (lit "id,name,lat,lng,tags"))
          (splitBy isComma (lit "c1,A,37.5,127.05,x,y")))
  = Some [lit "x"].
Proof.
  change (splitBy isComma (lit "c1,A,37.5,127.05,x,y"))
    with (splitBy isComma (lit "c1,A,37.5,127.05,x") ++ [lit "y"]).
  rewrite (surplus_cells_are_ignored asciiLower (lit "id,name,lat,lng,tags")
             (splitBy isComma (lit "c1,A,37.5,127.05,x")) [lit "y"]).
  - vm_compute; reflexivity.
  - vm_compute. lia.
Defined.
